(** * The envelope image store of [server.js]

    A shallow embedding of the Express handlers of [src/server.js]
    (POST /api/uploads, GET /api/uploads, GET /api/envelopes,
    DELETE /api/envelopes/:envelopeId, GET /api/files/:id) over an explicit
    model of the two stores they drive: the Mongo collection behind the
    [Upload] model (the metadata catalog) and the GridFS bucket [uploads]
    (the blob store).

    A handler is a computation over the state of the server that may throw;
    what the backends answer during a request (errors, fresh ids, the clock)
    is an input of the handler.  Requests are served one after the other.
    Strings are sequences of code units below 256.  A blob deletion that goes
    through takes effect when it is requested, and an upload that fails
    leaves no file behind. *)

From Stdlib Require Import ZArith NArith Ascii String.
From Stdlib.Strings Require Import Byte.
From stdpp Require Import base option list sorting gmap strings pretty.

Local Open Scope Z_scope.

(** ** JavaScript numbers and the coercion [Number(string)] *)

Module JS.

(** A JavaScript number, by the real value it denotes.  Every finite double is
    a dyadic rational: either an integer [Int z], or [(2k+1) / 2^e] with
    [e > 0], written [Frac k e].  The two zeros are one value here: the
    handlers never tell them apart ([-0 < 0] is false, and a query on [-0]
    matches [0]). *)
Inductive number : Type :=
  | NaN
  | Infinity (negative : bool)
  | Int (z : Z)
  | Frac (k : Z) (e : positive).

#[global] Instance number_eq_dec : EqDecision number.
Proof. solve_decision. Defined.

(** [Number.isInteger(x)] *)
Definition Number_isInteger (x : number) : bool :=
  match x with
  | Int _ => true
  | _ => false
  end.

(** [x < 0] *)
Definition lt_zero (x : number) : bool :=
  match x with
  | NaN => false
  | Infinity negative => negative
  | Int z => z <? 0
  | Frac k _ => k <? 0
  end.

(** Unary minus. [-(2k+1) = 2(-k-1)+1]. *)
Definition negate (x : number) : number :=
  match x with
  | NaN => NaN
  | Infinity negative => Infinity (negb negative)
  | Int z => Int (- z)
  | Frac k e => Frac (- k - 1) e
  end.

(** The dyadic [m / 2^e] for [m > 0] and [e > 0], in lowest terms. *)
Fixpoint reduce (m e : positive) : number :=
  match m with
  | xO m' =>
      match e with
      | xH => Int (Zpos m')
      | _ => reduce m' (Pos.pred e)
      end
  | _ => Frac (Zpos m / 2) e
  end.

(** The number [m * 2^e], for [m >= 0]. *)
Definition dyadic (m e : Z) : number :=
  match m with
  | Zpos p =>
      match e with
      | Zneg q => reduce p q
      | _ => Int (m * 2 ^ e)
      end
  | _ => Int 0
  end.

(** Rounding of the positive rational [n / d] to the nearest double, ties to
    even (IEEE 754 binary64: 53 bits of precision, least exponent -1074,
    overflow to Infinity from [2^1024] on). *)
Definition round_double (n d : Z) : number :=
  if (n <=? 0) || (d <=? 0) then Int 0 else
  let scaled e := if 0 <=? e then (n, d * 2 ^ e) else (n * 2 ^ (- e), d) in
  let e0 := Z.log2 n - Z.log2 d - 52 in
  let e1 := if fst (scaled e0) / snd (scaled e0) <? 2 ^ 52 then e0 - 1 else e0 in
  let e := Z.max e1 (-1074) in
  let '(num, den) := scaled e in
  let m := num / den in
  let r := num mod den in
  let m' := if (den <? 2 * r) || ((den =? 2 * r) && Z.odd m) then m + 1 else m in
  if 2 ^ 1024 <=? (if 0 <=? e then m' * 2 ^ e else 0) then Infinity false
  else dyadic m' e.

(** *** Lexing *)

Definition is_white (c : ascii) : bool :=
  let n := nat_of_ascii c in
  ((9 <=? n) && (n <=? 13))%nat || (n =? 32)%nat || (n =? 160)%nat.

Fixpoint trim_start (s : string) : string :=
  match s with
  | String c s' => if is_white c then trim_start s' else s
  | EmptyString => EmptyString
  end.

Fixpoint trim_end (s : string) : string :=
  match s with
  | String c s' =>
      match trim_end s' with
      | EmptyString => if is_white c then EmptyString else String c EmptyString
      | t => String c t
      end
  | EmptyString => EmptyString
  end.

(** [String.prototype.trim], on code units below 256. *)
Definition trim (s : string) : string := trim_end (trim_start s).

(** The value of a digit in the given radix. *)
Definition digit_value (radix : Z) (c : ascii) : option Z :=
  let n := Z.of_nat (nat_of_ascii c) in
  let v :=
    if (48 <=? n) && (n <=? 57) then Some (n - 48)
    else if (97 <=? n) && (n <=? 102) then Some (n - 87)
    else if (65 <=? n) && (n <=? 70) then Some (n - 55)
    else None in
  match v with
  | Some d => if d <? radix then Some d else None
  | None => None
  end.

(** Reads the longest prefix of digits: the accumulated value, how many digits
    were read, and the rest of the input. *)
Fixpoint digits (radix : Z) (acc : Z) (count : nat) (s : string) : Z * nat * string :=
  match s with
  | String c s' =>
      match digit_value radix c with
      | Some d => digits radix (radix * acc + d) (S count) s'
      | None => (acc, count, s)
      end
  | EmptyString => (acc, count, s)
  end.

Definition sign_of (s : string) : bool * string :=
  match s with
  | String "-" s' => (true, s')
  | String "+" s' => (false, s')
  | _ => (false, s)
  end.

(** ExponentPart, optional: [e] or [E], a sign, one digit at least.  [None]
    when the rest of the literal is not an exponent part. *)
Definition exponent_part (s : string) : option Z :=
  match s with
  | EmptyString => Some 0
  | String c s' =>
      if (Ascii.eqb c "e" || Ascii.eqb c "E")%bool then
        let '(neg, s1) := sign_of s' in
        match digits 10 0 0 s1 with
        | (_, O, _) => None
        | (v, _, EmptyString) => Some (if neg then - v else v)
        | _ => None
        end
      else None
  end.

(** StrUnsignedDecimalLiteral, other than [Infinity]. *)
Definition unsigned_decimal (s : string) : option number :=
  let '(ip, ni, s1) := digits 10 0 0 s in
  let '(mant, nf, s2) :=
    match s1 with
    | String "." s1' => digits 10 ip 0 s1'
    | _ => (ip, O, s1)
    end in
  match (ni + nf)%nat with
  | O => None
  | _ =>
      match exponent_part s2 with
      | Some ex =>
          let ex' := ex - Z.of_nat nf in
          Some (if 0 <=? ex' then round_double (mant * 10 ^ ex') 1
                else round_double mant (10 ^ (- ex')))
      | None => None
      end
  end.

(** NonDecimalIntegerLiteral: [0x], [0o], [0b] and their digits. *)
Definition non_decimal (s : string) : option number :=
  match s with
  | String "0" (String c s') =>
      let radix :=
        if (Ascii.eqb c "x" || Ascii.eqb c "X")%bool then Some 16
        else if (Ascii.eqb c "o" || Ascii.eqb c "O")%bool then Some 8
        else if (Ascii.eqb c "b" || Ascii.eqb c "B")%bool then Some 2
        else None in
      match radix with
      | Some r =>
          match digits r 0 0 s' with
          | (_, O, _) => None
          | (v, _, EmptyString) => Some (round_double v 1)
          | _ => None
          end
      | None => None
      end
  | _ => None
  end.

(** StringToNumber: [Number(s)] for a string [s]. *)
Definition StringToNumber (s : string) : number :=
  let t := trim s in
  if String.eqb t "" then Int 0 else
  match non_decimal t with
  | Some x => x
  | None =>
      let '(neg, u) := sign_of t in
      let x := if String.eqb u "Infinity" then Some (Infinity false)
               else unsigned_decimal u in
      match x with
      | Some x => if neg then negate x else x
      | None => NaN
      end
  end.

(** [Number(v)] where [v] is [undefined] ([None]) or a string. *)
Definition Number (v : option string) : number :=
  match v with
  | None => NaN
  | Some s => StringToNumber s
  end.

(** Truthiness of an optional string: [undefined] and [''] are falsy. *)
Definition truthy (v : option string) : bool :=
  match v with
  | Some s => negb (String.eqb s "")
  | None => false
  end.

End JS.

Import JS.

(** ** BSON object ids

    An ObjectId is twelve bytes, here the number below [2^96] they spell.
    [String(id)] is its 24 lower-case hexadecimal digits, and
    [new mongoose.Types.ObjectId(s)] reads such a string back, throwing on
    anything else. *)

Module ObjectId.

Definition hex_digit (d : N) : ascii :=
  ascii_of_N (if (d <? 10)%N then 48 + d else 87 + d).

Fixpoint hex (width : nat) (n : N) : string :=
  match width with
  | O => EmptyString
  | S w => String (hex_digit ((n / 16 ^ N.of_nat w) mod 16)%N) (hex w n)
  end.

Fixpoint unhex (acc : N) (s : string) : option N :=
  match s with
  | EmptyString => Some acc
  | String c s' =>
      match digit_value 16 c with
      | Some d => unhex (16 * acc + Z.to_N d) s'
      | None => None
      end
  end.

(** [String(id)] *)
Definition toString (id : N) : string := hex 24 id.

(** [new ObjectId(s)]: [None] stands for the exception. *)
Definition parse (s : string) : option N :=
  if (String.length s =? 24)%nat then unhex 0 s else None.

End ObjectId.

(** ** The stores *)

(** Modelled from the spec: the schema [models/upload.js] is not among the
    sources.  A catalog document carries the fields the handlers read and
    write; [createdAt] is set when the document is inserted and kept by later
    updates (spec, section 4.1: "createdAt (on insert only, preserved on
    update)").  A missing [fileId] is [None]. *)
Record Doc : Type := {
  d_id : N;
  d_envelopeId : number;
  d_url : string;
  d_originalName : string;
  d_mimeType : string;
  d_size : N;
  d_fileId : option string;
  d_createdAt : Z
}.

(** A file of the GridFS bucket [uploads] (a document of [uploads.files]
    together with its chunks). *)
Record GridFile : Type := {
  g_filename : string;
  g_contentType : string;
  g_envelopeId : number;
  g_data : list byte
}.

(** [req.file] as multer's memory storage builds it. *)
Record File : Type := {
  f_originalname : string;
  f_mimetype : string;
  f_size : N;
  f_buffer : list byte
}.

(** What the POST /api/uploads handler reads of its request:
    [req.body.envelopeId], a string or [undefined], and [req.file]. *)
Record UploadRequest : Type := {
  body_envelopeId : option string;
  file : option File
}.

(** A part of the multipart body, before multer. *)
Record Part : Type := {
  p_filename : string;
  p_mimetype : string;
  p_content : list byte
}.

(** Ghost record of the requests the handlers send to the two stores, oldest
    first: a blob deletion when it is requested, the others when the store
    acknowledges them. *)
Inductive Event : Type :=
  | BlobDeleteRequested (id : N)
  | BlobCreated (id : N)
  | CatalogUpserted (envelopeId : number) (fileId : string)
  | CatalogRemoved (envelopeId : number).

(** The process globals [isConnected] and [gfsBucket], the two stores, and the
    ghost log. *)
Record World : Type := {
  isConnected : bool;
  gfsBucket : bool;
  catalog : list Doc;
  files : gmap N GridFile;
  log : list Event
}.

(** What the backends do during one request.  [Some msg] is a call that fails
    with that message; [blob_delete_ok] tells whether a requested blob
    deletion goes through, [download_ok] whether the download stream does.
    The id GridFS gives the upload stream, the [_id] Mongo gives an inserted
    document and the clock are the environment's too. *)
Record Env : Type := {
  connect_error : option string;
  find_error : option string;
  upload_error : option string;
  upsert_error : option string;
  remove_error : option string;
  files_find_error : option string;
  download_ok : bool;
  blob_delete_ok : bool;
  new_file_id : N;
  new_doc_id : N;
  now : Z
}.

(** The JSON entry the handlers answer with. *)
Record View : Type := {
  v_id : string;
  v_envelopeId : number;
  v_url : string;
  v_originalName : string;
  v_mimeType : string;
  v_size : N;
  v_createdAt : Z
}.

Inductive Body : Type :=
  | BError (error : string)
  | BEntry (v : View)
  | BList (l : list View)
  | BMap (m : gmap Z View)
  | BDeleted (ok deleted : bool).

Inductive Response : Type :=
  | Json (status : nat) (body : Body)
  | End (status : nat) (text : string)
  | Stream (contentType : option string) (cacheControl : string) (bytes : list byte)
  | Unhandled (message : string).

(** ** Handlers as state-and-exception computations *)

Inductive Outcome (A : Type) : Type :=
  | Ok (a : A)
  | Throw (message : string).
Arguments Ok {A} a.
Arguments Throw {A} message.

Definition M (A : Type) : Type := World → Outcome A * World.

#[global] Instance M_ret : MRet M := λ A a w, (Ok a, w).
#[global] Instance M_bind : MBind M := λ A B k m w,
  match m w with
  | (Ok a, w') => k a w'
  | (Throw msg, w') => (Throw msg, w')
  end.

Definition throw {A} (msg : string) : M A := λ w, (Throw msg, w).
Definition get_world : M World := λ w, (Ok w, w).

(** [try { body } catch (err) { handler(err.message) }] *)
Definition try_catch {A} (body : M A) (handler : string → M A) : M A := λ w,
  match body w with
  | (Ok a, w') => (Ok a, w')
  | (Throw msg, w') => handler msg w'
  end.

(** A backend call that the environment may fail. *)
Definition backend (error : option string) : M unit :=
  match error with
  | Some msg => throw msg
  | None => mret tt
  end.

Definition with_log (l : list Event) (w : World) : World :=
  {| isConnected := isConnected w; gfsBucket := gfsBucket w;
     catalog := catalog w; files := files w; log := l |}.

Definition with_catalog (c : list Doc) (w : World) : World :=
  {| isConnected := isConnected w; gfsBucket := gfsBucket w;
     catalog := c; files := files w; log := log w |}.

Definition with_files (f : gmap N GridFile) (w : World) : World :=
  {| isConnected := isConnected w; gfsBucket := gfsBucket w;
     catalog := catalog w; files := f; log := log w |}.

Definition emit (e : Event) : M unit := λ w,
  (Ok tt, with_log (log w ++ [e]) w).

Definition set_catalog (c : list Doc) : M unit := λ w, (Ok tt, with_catalog c w).

Definition set_files (f : gmap N GridFile) : M unit := λ w, (Ok tt, with_files f w).

Definition set_isConnected (b : bool) : M unit := λ w,
  (Ok tt, {| isConnected := b; gfsBucket := gfsBucket w;
             catalog := catalog w; files := files w; log := log w |}).

Definition set_gfsBucket (b : bool) : M unit := λ w,
  (Ok tt, {| isConnected := isConnected w; gfsBucket := b;
             catalog := catalog w; files := files w; log := log w |}).

(** [err.message || fallback] *)
Definition message_or (msg fallback : string) : string :=
  if String.eqb msg "" then fallback else msg.

(** The file that [openUploadStream(req.file.originalname, { contentType:
    req.file.mimetype, metadata: { envelopeId } })] holds once the buffer has
    been piped into it. *)
Definition grid_file_of (f : File) (envelopeId : number) : GridFile :=
  {| g_filename := f_originalname f; g_contentType := f_mimetype f;
     g_envelopeId := envelopeId; g_data := f_buffer f |}.

(** *** The [Upload] model (Mongo collection) *)

Definition matches (envelopeId : number) (d : Doc) : bool :=
  bool_decide (d_envelopeId d = envelopeId).

(** The update document of the upload handler. *)
Record Fields : Type := {
  u_originalName : string;
  u_mimeType : string;
  u_size : N;
  u_fileId : string;
  u_url : string
}.

Definition apply_fields (envelopeId : number) (u : Fields) (d : Doc) : Doc :=
  {| d_id := d_id d; d_envelopeId := envelopeId; d_url := u_url u;
     d_originalName := u_originalName u; d_mimeType := u_mimeType u;
     d_size := u_size u; d_fileId := Some (u_fileId u);
     d_createdAt := d_createdAt d |}.

Definition fresh_doc (env : Env) (envelopeId : number) (u : Fields) : Doc :=
  {| d_id := new_doc_id env; d_envelopeId := envelopeId; d_url := u_url u;
     d_originalName := u_originalName u; d_mimeType := u_mimeType u;
     d_size := u_size u; d_fileId := Some (u_fileId u);
     d_createdAt := now env |}.

(** Updates the first document that matches, or appends a fresh one: the
    resulting collection and the document as it is afterwards. *)
Fixpoint upsert_docs (env : Env) (envelopeId : number) (u : Fields)
    (docs : list Doc) : list Doc * Doc :=
  match docs with
  | [] => ([fresh_doc env envelopeId u], fresh_doc env envelopeId u)
  | d :: rest =>
      if matches envelopeId d
      then (apply_fields envelopeId u d :: rest, apply_fields envelopeId u d)
      else let '(rest', r) := upsert_docs env envelopeId u rest in (d :: rest', r)
  end.

(** Removes the first document that matches. *)
Fixpoint remove_doc (envelopeId : number) (docs : list Doc) : list Doc * option Doc :=
  match docs with
  | [] => ([], None)
  | d :: rest =>
      if matches envelopeId d then (rest, Some d)
      else let '(rest', r) := remove_doc envelopeId rest in (d :: rest', r)
  end.

(** [createdAt: -1]: newest first. *)
Definition newer_first (a b : Doc) : Prop := d_createdAt b ≤ d_createdAt a.

#[global] Instance newer_first_dec a b : Decision (newer_first a b).
Proof. unfold newer_first. apply _. Defined.

Section Handlers.

(** [process.env.UPLOAD_DIR] and [MAX_FILE_SIZE] as read at start-up. *)
Variable uploadDir : option string.
Variable maxFileSize : N.

(** The backends' answers during the request at hand. *)
Variable env : Env.

(** [Upload.findOne({ envelopeId }).lean()] *)
Definition Upload_findOne (envelopeId : number) : M (option Doc) :=
  backend (find_error env);;
  w ← get_world;
  mret (List.find (matches envelopeId) (catalog w)).

(** [Upload.findOneAndUpdate({ envelopeId }, fields,
    { new: true, upsert: true, setDefaultsOnInsert: true })] *)
Definition Upload_findOneAndUpdate (envelopeId : number) (u : Fields) : M Doc :=
  backend (upsert_error env);;
  w ← get_world;
  let '(docs, doc) := upsert_docs env envelopeId u (catalog w) in
  set_catalog docs;;
  emit (CatalogUpserted envelopeId (u_fileId u));;
  mret doc.

(** [Upload.findOneAndDelete({ envelopeId }).lean()] *)
Definition Upload_findOneAndDelete (envelopeId : number) : M (option Doc) :=
  backend (remove_error env);;
  w ← get_world;
  let '(docs, doc) := remove_doc envelopeId (catalog w) in
  match doc with
  | Some _ => set_catalog docs;; emit (CatalogRemoved envelopeId);; mret doc
  | None => mret None
  end.

(** [Upload.find().lean()] *)
Definition Upload_find : M (list Doc) :=
  backend (find_error env);;
  w ← get_world;
  mret (catalog w).

(** [Upload.find().sort({ createdAt: -1 }).limit(200).lean()].  Documents of
    the same [createdAt] come in the order the merge sort leaves them. *)
Definition Upload_find_newest : M (list Doc) :=
  backend (find_error env);;
  w ← get_world;
  mret (take 200 (merge_sort newer_first (catalog w))).

(** *** The GridFS bucket *)

(** [new mongoose.Types.ObjectId(s)] *)
Definition new_ObjectId (s : string) : M N :=
  match ObjectId.parse s with
  | Some id => mret id
  | None => throw "input must be a 24 character hex string"
  end.

(** [gfsBucket.delete(id, () => {})]: the deletion is requested and its
    outcome ignored.  A deletion that goes through is taken to have its
    effect when it is requested. *)
Definition gfsBucket_delete (id : N) : M unit :=
  emit (BlobDeleteRequested id);;
  w ← get_world;
  if blob_delete_ok env then set_files (delete id (files w)) else mret tt.

(** Lines 80 to 86 and 189 to 195, the same text in both handlers:
    [if (d.fileId) { try { gfsBucket.delete(new ObjectId(d.fileId), ...) }
    catch (_e) {} }]. *)
Definition delete_blob_of (d : Doc) : M unit :=
  if truthy (d_fileId d)
  then try_catch
         (id ← new_ObjectId (default "" (d_fileId d));
          gfsBucket_delete id)
         (λ _, mret tt)
  else mret tt.

(** Lines 88 to 99: the buffer is piped into a new upload stream; the promise
    resolves with [String(uploadStream.id)] on [finish] and rejects on
    [error].  A failed upload leaves no file in [uploads.files]. *)
Definition gfsBucket_upload (f : File) (envelopeId : number) : M string :=
  backend (upload_error env);;
  w ← get_world;
  set_files (<[new_file_id env := grid_file_of f envelopeId]> (files w));;
  emit (BlobCreated (new_file_id env));;
  mret (ObjectId.toString (new_file_id env)).

(** [async function ensureDb()] *)
Definition ensureDb : M unit :=
  w ← get_world;
  (if negb (isConnected w)
   then backend (connect_error env);; set_isConnected true
   else mret tt);;
  w ← get_world;
  if negb (gfsBucket w) then set_gfsBucket true else mret tt.

Definition view (d : Doc) : View :=
  {| v_id := ObjectId.toString (d_id d); v_envelopeId := d_envelopeId d;
     v_url := d_url d; v_originalName := d_originalName d;
     v_mimeType := d_mimeType d; v_size := d_size d;
     v_createdAt := d_createdAt d |}.

(** *** POST /api/uploads (lines 63 to 127) *)

Definition post_uploads (req : UploadRequest) : M Response :=
  try_catch
    (ensureDb;;
     let envelopeIdRaw := body_envelopeId req in
     let envelopeId := Number envelopeIdRaw in
     if negb (Number_isInteger envelopeId) || lt_zero envelopeId
     then mret (Json 400 (BError "Invalid envelopeId"))
     else
       match file req with
       | None => mret (Json 400 (BError "No file uploaded"))
       | Some f =>
           existing ← Upload_findOne envelopeId;
           match existing with
           | Some d =>
               delete_blob_of d
           | None => mret tt
           end;;
           fileId ← gfsBucket_upload f envelopeId;
           let url := ("/api/files/" +:+ fileId)%string in
           doc ← Upload_findOneAndUpdate envelopeId
                   {| u_originalName := f_originalname f;
                      u_mimeType := f_mimetype f;
                      u_size := f_size f;
                      u_fileId := fileId;
                      u_url := url |};
           mret (Json 200 (BEntry (view doc)))
       end)
    (λ msg, mret (Json 500 (BError (message_or msg "Upload failed")))).

(** *** GET /api/uploads (lines 129 to 148) *)

(** The filter shared by the two listings: without a static upload directory,
    a document that has no [fileId] is not shown. *)
Definition hidden (d : Doc) : bool :=
  negb (truthy uploadDir) && negb (truthy (d_fileId d)).

Definition get_uploads : M Response :=
  ensureDb;;
  docs ← Upload_find_newest;
  mret (Json 200 (BList (view <$> filter (λ d, ¬ hidden d) docs))).

(** *** GET /api/envelopes (lines 150 to 172) *)

(** The property name under which an integer [envelopeId] is stored. *)
Definition property_key (x : number) : Z :=
  match x with
  | Int z => z
  | _ => 0
  end.

(** The body of the [forEach] callback, on the object built so far. *)
Definition collect (byEnvelopeId : gmap Z View) (d : Doc) : gmap Z View :=
  if negb (Number_isInteger (d_envelopeId d)) || lt_zero (d_envelopeId d)
  then byEnvelopeId
  else if hidden d then byEnvelopeId
  else <[property_key (d_envelopeId d) := view d]> byEnvelopeId.

Definition get_envelopes : M Response :=
  ensureDb;;
  docs ← Upload_find;
  mret (Json 200 (BMap (foldl collect ∅ docs))).

(** *** DELETE /api/envelopes/:envelopeId (lines 174 to 201) *)

Definition delete_envelope (param : string) : M Response :=
  try_catch
    (ensureDb;;
     let envelopeId := Number (Some param) in
     if negb (Number_isInteger envelopeId) || lt_zero envelopeId
     then mret (Json 400 (BError "Invalid envelopeId"))
     else
       doc ← Upload_findOneAndDelete envelopeId;
       match doc with
       | None => mret (Json 200 (BDeleted true false))
       | Some d =>
           delete_blob_of d;;
           mret (Json 200 (BDeleted true true))
       end)
    (λ msg, mret (Json 500 (BError (message_or msg "Delete failed")))).

(** *** GET /api/files/:id (lines 203 to 236) *)

Definition get_file (id : string) : M Response :=
  try_catch
    (ensureDb;;
     if negb (truthy (Some id)) then mret (End 400 "Missing id")
     else
       objectId ← new_ObjectId id;
       backend (files_find_error env);;
       w ← get_world;
       match files w !! objectId with
       | None => mret (End 404 "Not found")
       | Some f =>
           let contentType :=
             if truthy (Some (g_contentType f)) then Some (g_contentType f)
             else None in
           if download_ok env
           then mret (Stream contentType "public, max-age=31536000, immutable"
                        (g_data f))
           else mret (End 404 "Not found")
       end)
    (λ _, mret (End 400 "Bad request")).

(** *** multer and the error middleware (lines 37 to 47 and 238 to 244) *)

Definition fileFilter (p : Part) : option string :=
  if negb (truthy (Some (p_mimetype p)))
     || negb (String.prefix "image/" (p_mimetype p))
  then Some "Only image uploads are allowed"%string
  else None.

Definition error_middleware (code : option string) (msg : string) : Response :=
  if bool_decide (code = Some "LIMIT_FILE_SIZE"%string)
  then Json 413 (BError ("File too large. MAX_FILE_SIZE=" +:+ pretty maxFileSize))
  else Json 400 (BError (message_or msg "Bad Request")).

(** [upload.single('image')] with memory storage: the file the handler gets,
    or the error handed to the error middleware. *)
Definition multer_single (image : option Part)
    : (option string * string) + option File :=
  match image with
  | None => inr None
  | Some p =>
      match fileFilter p with
      | Some msg => inl (None, msg)
      | None =>
          if (maxFileSize <? N.of_nat (length (p_content p)))%N
          then inl (Some "LIMIT_FILE_SIZE"%string, "File too large"%string)
          else inr (Some {| f_originalname := p_filename p;
                            f_mimetype := p_mimetype p;
                            f_size := N.of_nat (length (p_content p));
                            f_buffer := p_content p |})
      end
  end.

(** The route POST /api/uploads as mounted: multer, then the handler. *)
Definition route_post_uploads (envelopeId : option string) (image : option Part)
    : M Response :=
  match multer_single image with
  | inl (code, msg) => mret (error_middleware code msg)
  | inr f => post_uploads {| body_envelopeId := envelopeId; file := f |}
  end.

End Handlers.

(** What Express is left with: a handler that throws outside any [try] leaves
    a rejected promise. *)
Definition run (h : M Response) (w : World) : Response * World :=
  match h w with
  | (Ok r, w') => (r, w')
  | (Throw msg, w') => (Unhandled msg, w')
  end.

(** Where a url of the form [/api/files/:id] is routed: the [id] parameter. *)
Definition route_files (url : string) : option string :=
  if String.prefix "/api/files/" url
  then Some (String.substring 11 (String.length url - 11) url)
  else None.

(** ** Vocabulary of the properties *)

(** The server as started, before any request. *)
Definition initial : World :=
  {| isConnected := false; gfsBucket := false; catalog := []; files := ∅;
     log := [] |}.

(** A request during which every backend call goes through. *)
Definition healthy (env : Env) : Prop :=
  connect_error env = None ∧ find_error env = None ∧ upload_error env = None
  ∧ upsert_error env = None ∧ remove_error env = None
  ∧ files_find_error env = None ∧ download_ok env = true.

(** [envelopeId] passes the guard of lines 69 and 178. *)
Definition valid_envelopeId (x : number) : bool :=
  Number_isInteger x && negb (lt_zero x).

(** At most one catalog entry per envelope (I1). *)
Definition unique_envelopes (docs : list Doc) : Prop :=
  NoDup (d_envelopeId <$> docs).

(** The blob a catalog entry refers to, when its [fileId] names one. *)
Definition blob_of (d : Doc) : option N :=
  match d_fileId d with
  | Some s => ObjectId.parse s
  | None => None
  end.

(** The blob is referenced by a live catalog entry. *)
Definition referenced (docs : list Doc) (id : N) : Prop :=
  ∃ d, d ∈ docs ∧ blob_of d = Some id.

(** A response that reports a failure. *)
Definition is_error (r : Response) : bool :=
  match r with
  | Json status _ | End status _ => (400 <=? status)%nat
  | Stream _ _ _ => false
  | Unhandled _ => true
  end.

Definition ok_env : Env :=
  {| connect_error := None; find_error := None; upload_error := None;
     upsert_error := None; remove_error := None; files_find_error := None;
     download_ok := true; blob_delete_ok := true;
     new_file_id := 1; new_doc_id := 1; now := 0 |}.

(** The state after a blob deletion was requested. *)
Definition blob_deleted (env : Env) (id : N) (w : World) : World :=
  let w1 := with_log (log w ++ [BlobDeleteRequested id]) w in
  if blob_delete_ok env then with_files (delete id (files w1)) w1 else w1.

(** The state after the upload stream finished. *)
Definition blob_created (env : Env) (f : File) (envelopeId : number) (w : World)
    : World :=
  let w1 := with_files (<[new_file_id env := grid_file_of f envelopeId]> (files w)) w in
  with_log (log w1 ++ [BlobCreated (new_file_id env)]) w1.

(** The update document of lines 104 to 111. *)
Definition fields_for (env : Env) (f : File) : Fields :=
  {| u_originalName := f_originalname f; u_mimeType := f_mimetype f;
     u_size := f_size f; u_fileId := ObjectId.toString (new_file_id env);
     u_url := "/api/files/" +:+ ObjectId.toString (new_file_id env) |}.

(** The state after the catalog acknowledged the upsert. *)
Definition upserted (env : Env) (envelopeId : number) (u : Fields) (w : World)
    : World :=
  let w1 := with_catalog (upsert_docs env envelopeId u (catalog w)).1 w in
  with_log (log w1 ++ [CatalogUpserted envelopeId (u_fileId u)]) w1.

(** The state after the catalog acknowledged the removal. *)
Definition removed (envelopeId : number) (w : World) : World :=
  let w1 := with_catalog (remove_doc envelopeId (catalog w)).1 w in
  with_log (log w1 ++ [CatalogRemoved envelopeId]) w1.

(** The state in which [ensureDb] leaves a reachable database. *)
Definition connected (w : World) : World :=
  {| isConnected := true; gfsBucket := true; catalog := catalog w;
     files := files w; log := log w |}.

(** Newest first, on the entries of a response. *)
Definition newer_first_view (a b : View) : Prop := v_createdAt b ≤ v_createdAt a.

(** The requests the server answers. *)
Inductive Request : Type :=
  | PostUpload (envelopeId : option string) (image : option Part)
  | GetUploads
  | GetEnvelopes
  | DeleteEnvelope (param : string)
  | GetFile (id : string).

Definition serve (uploadDir : option string) (maxFileSize : N) (env : Env)
    (rq : Request) : M Response :=
  match rq with
  | PostUpload envelopeId image =>
      route_post_uploads maxFileSize env envelopeId image
  | GetUploads => get_uploads uploadDir env
  | GetEnvelopes => get_envelopes uploadDir env
  | DeleteEnvelope param => delete_envelope env param
  | GetFile id => get_file env id
  end.

(** The states the server gets to from [initial], one request after the
    other, whatever the backends do. *)
Inductive reachable (uploadDir : option string) (maxFileSize : N) : World → Prop :=
  | reachable_initial : reachable uploadDir maxFileSize initial
  | reachable_serve w env rq :
      reachable uploadDir maxFileSize w →
      reachable uploadDir maxFileSize (run (serve uploadDir maxFileSize env rq) w).2.

(** A string of white space only (the empty string is one). *)
Fixpoint blank (s : string) : bool :=
  match s with
  | EmptyString => true
  | String c s' => is_white c && blank s'
  end.

(** *** Fixtures *)

Definition cat_png : File :=
  {| f_originalname := "cat.png"; f_mimetype := "image/png"; f_size := 3;
     f_buffer := [x89; x50; x4e] |}.

Definition dog_png : File :=
  {| f_originalname := "dog.png"; f_mimetype := "image/png"; f_size := 2;
     f_buffer := [x89; x51] |}.

Definition empty_png : File :=
  {| f_originalname := "empty.png"; f_mimetype := "image/png"; f_size := 0;
     f_buffer := [] |}.

(** The server after one successful upload of [cat_png] for envelope 7: the
    catalog has one entry, which refers to blob 1. *)
Definition after_first_upload : World :=
  (run (post_uploads ok_env {| body_envelopeId := Some "7"%string;
                               file := Some cat_png |}) initial).2.

(** A later request; its upload stream would get id 2. *)
Definition second_env (upload_error upsert_error : option string) : Env :=
  {| connect_error := None; find_error := None; upload_error := upload_error;
     upsert_error := upsert_error; remove_error := None;
     files_find_error := None; download_ok := true; blob_delete_ok := true;
     new_file_id := 2; new_doc_id := 2; now := 60 |}.

(** The database is reachable: connected already, or the connection goes
    through. *)
Definition db_up (env : Env) (w : World) : Prop :=
  isConnected w = true ∨ connect_error env = None.

(** The events logged between two states of one run. *)
Definition new_events (w w' : World) : list Event :=
  drop (length (log w)) (log w').

(** Neither store, nor the log, differs. *)
Definition same_stores (w w' : World) : Prop :=
  catalog w' = catalog w ∧ files w' = files w ∧ log w' = log w.

(** ** The primitives, one equation each *)

Lemma Upload_findOne_eq env id w :
  Upload_findOne env id w =
  match find_error env with
  | Some msg => (Throw msg, w)
  | None => (Ok (List.find (matches id) (catalog w)), w)
  end.
Proof. unfold Upload_findOne, mbind, M_bind, backend. by destruct (find_error env). Qed.

Lemma Upload_findOneAndUpdate_eq env id u w :
  Upload_findOneAndUpdate env id u w =
  match upsert_error env with
  | Some msg => (Throw msg, w)
  | None => (Ok (upsert_docs env id u (catalog w)).2, upserted env id u w)
  end.
Proof.
  unfold Upload_findOneAndUpdate, upserted, mbind, M_bind, backend, get_world.
  destruct (upsert_error env); simpl; [done|].
  by destruct (upsert_docs env id u (catalog w)).
Qed.

Lemma Upload_findOneAndDelete_eq env id w :
  Upload_findOneAndDelete env id w =
  match remove_error env with
  | Some msg => (Throw msg, w)
  | None =>
      match (remove_doc id (catalog w)).2 with
      | Some d => (Ok (Some d), removed id w)
      | None => (Ok None, w)
      end
  end.
Proof.
  unfold Upload_findOneAndDelete, removed, mbind, M_bind, backend, get_world.
  destruct (remove_error env); simpl; [done|].
  by destruct (remove_doc id (catalog w)) as [docs [d|]].
Qed.

Lemma delete_blob_of_eq env d w :
  delete_blob_of env d w =
  (Ok tt, match blob_of d with
          | Some id => blob_deleted env id w
          | None => w
          end).
Proof.
  unfold delete_blob_of, blob_of, blob_deleted, truthy, try_catch, new_ObjectId,
    gfsBucket_delete, mbind, M_bind, emit, get_world.
  destruct (d_fileId d) as [s|]; simpl; [|done].
  destruct (String.eqb s "") eqn:Es; simpl; [by apply String.eqb_eq in Es as ->|].
  destruct (ObjectId.parse s); simpl; [|done].
  by destruct (blob_delete_ok env).
Qed.

Lemma gfsBucket_upload_eq env f id w :
  gfsBucket_upload env f id w =
  match upload_error env with
  | Some msg => (Throw msg, w)
  | None => (Ok (ObjectId.toString (new_file_id env)), blob_created env f id w)
  end.
Proof.
  unfold gfsBucket_upload, blob_created, mbind, M_bind, backend, get_world.
  by destruct (upload_error env).
Qed.

Lemma ensureDb_eq env w :
  ensureDb env w =
  match (if isConnected w then None else connect_error env) with
  | Some msg => (Throw msg, w)
  | None => (Ok tt, connected w)
  end.
Proof.
  unfold ensureDb, connected, mbind, M_bind, get_world, backend.
  destruct w as [[] [] docs fs l]; simpl; try done;
    by destruct (connect_error env).
Qed.

Lemma db_up_connects env w :
  db_up env w ↔ (if isConnected w then None else connect_error env) = None.
Proof.
  unfold db_up. destruct (isConnected w); [tauto|].
  split; [intros [?|?]; done | by right].
Qed.

Lemma valid_envelopeId_guard x :
  negb (Number_isInteger x) || lt_zero x = negb (valid_envelopeId x).
Proof. unfold valid_envelopeId. by destruct (Number_isInteger x), (lt_zero x). Qed.

Lemma valid_envelopeId_Int x :
  valid_envelopeId x = true ↔ ∃ z, x = Int z ∧ 0 ≤ z.
Proof.
  unfold valid_envelopeId. split.
  - destruct x; simpl; try done. intros H. exists z. split; [done|].
    apply negb_true_iff, Z.ltb_ge in H. lia.
  - intros (z & -> & Hz). simpl. apply negb_true_iff, Z.ltb_ge. lia.
Qed.

(** ** The handlers that write, as one equation each *)

Lemma post_uploads_eq env req w :
  run (post_uploads env req) w =
  match (if isConnected w then None else connect_error env) with
  | Some msg => (Json 500 (BError (message_or msg "Upload failed")), w)
  | None =>
      let w1 := connected w in
      let envelopeId := Number (body_envelopeId req) in
      if negb (valid_envelopeId envelopeId)
      then (Json 400 (BError "Invalid envelopeId"), w1)
      else
        match file req with
        | None => (Json 400 (BError "No file uploaded"), w1)
        | Some f =>
            match find_error env with
            | Some msg => (Json 500 (BError (message_or msg "Upload failed")), w1)
            | None =>
                let w2 :=
                  match List.find (matches envelopeId) (catalog w) ≫= blob_of with
                  | Some id => blob_deleted env id w1
                  | None => w1
                  end in
                match upload_error env with
                | Some msg =>
                    (Json 500 (BError (message_or msg "Upload failed")), w2)
                | None =>
                    let w3 := blob_created env f envelopeId w2 in
                    match upsert_error env with
                    | Some msg =>
                        (Json 500 (BError (message_or msg "Upload failed")), w3)
                    | None =>
                        (Json 200 (BEntry (view
                           (upsert_docs env envelopeId (fields_for env f)
                              (catalog w3)).2)),
                         upserted env envelopeId (fields_for env f) w3)
                    end
                end
            end
        end
  end.
Proof.
  unfold run, post_uploads, try_catch, mbind, M_bind.
  rewrite ensureDb_eq, valid_envelopeId_guard.
  destruct (if isConnected w then None else connect_error env); simpl; [done|].
  destruct (valid_envelopeId _); simpl; [|done].
  destruct (file req) as [f|]; simpl; [|done].
  rewrite Upload_findOne_eq. destruct (find_error env); simpl; [done|].
  destruct (List.find _ (catalog w)) as [d|]; simpl.
  - rewrite delete_blob_of_eq, gfsBucket_upload_eq.
    destruct (upload_error env); simpl; [done|].
    rewrite Upload_findOneAndUpdate_eq. by destruct (upsert_error env).
  - rewrite gfsBucket_upload_eq.
    destruct (upload_error env); simpl; [done|].
    rewrite Upload_findOneAndUpdate_eq. by destruct (upsert_error env).
Qed.

Lemma delete_envelope_eq env param w :
  run (delete_envelope env param) w =
  match (if isConnected w then None else connect_error env) with
  | Some msg => (Json 500 (BError (message_or msg "Delete failed")), w)
  | None =>
      let w1 := connected w in
      let envelopeId := Number (Some param) in
      if negb (valid_envelopeId envelopeId)
      then (Json 400 (BError "Invalid envelopeId"), w1)
      else
        match remove_error env with
        | Some msg => (Json 500 (BError (message_or msg "Delete failed")), w1)
        | None =>
            match (remove_doc envelopeId (catalog w)).2 with
            | None => (Json 200 (BDeleted true false), w1)
            | Some d =>
                (Json 200 (BDeleted true true),
                 match blob_of d with
                 | Some id => blob_deleted env id (removed envelopeId w1)
                 | None => removed envelopeId w1
                 end)
            end
        end
  end.
Proof.
  unfold run, delete_envelope, try_catch, mbind, M_bind.
  rewrite ensureDb_eq, valid_envelopeId_guard.
  destruct (if isConnected w then None else connect_error env); simpl; [done|].
  destruct (valid_envelopeId _); simpl; [|done].
  rewrite Upload_findOneAndDelete_eq. destruct (remove_error env); simpl; [done|].
  destruct (remove_doc _ (catalog w)).2 as [d|]; simpl; [|done].
  by rewrite delete_blob_of_eq.
Qed.

(** ** Rejections that come before any store is touched *)

Lemma same_stores_connected w : same_stores w (connected w).
Proof. by split_and!. Qed.

Lemma same_stores_refl w : same_stores w w.
Proof. by split_and!. Qed.

Lemma post_uploads_invalid env req w :
  valid_envelopeId (Number (body_envelopeId req)) = false →
  ∃ r w', run (post_uploads env req) w = (r, w') ∧ same_stores w w'
    ∧ is_error r = true
    ∧ (db_up env w → r = Json 400 (BError "Invalid envelopeId")).
Proof.
  intros Hv. rewrite post_uploads_eq. cbv zeta. rewrite Hv. simpl.
  destruct (if isConnected w then None else connect_error env) eqn:E.
  - eexists _, _. split_and!; [done | apply same_stores_refl | done |].
    intros Hup%db_up_connects. congruence.
  - eexists _, _. split_and!; [done | apply same_stores_connected | done | done].
Qed.

Lemma delete_envelope_invalid env param w :
  valid_envelopeId (Number (Some param)) = false →
  ∃ r w', run (delete_envelope env param) w = (r, w') ∧ same_stores w w'
    ∧ is_error r = true
    ∧ (db_up env w → r = Json 400 (BError "Invalid envelopeId")).
Proof.
  intros Hv. rewrite delete_envelope_eq. cbv zeta. rewrite Hv. simpl.
  destruct (if isConnected w then None else connect_error env) eqn:E.
  - eexists _, _. split_and!; [done | apply same_stores_refl | done |].
    intros Hup%db_up_connects. congruence.
  - eexists _, _. split_and!; [done | apply same_stores_connected | done | done].
Qed.

(** C5. A request whose [envelopeId], once coerced by [Number], is not a
    non-negative integer is rejected before any mutation, by the upload
    handler (whatever file comes with it) and by the delete handler alike:
    the catalog, the blob store and the log of store requests are as they
    were, the response is an error, and it is the 400 "Invalid envelopeId"
    whenever the database is reachable. *)
Theorem invalid_envelopeId_rejected env w (raw : option string) :
  valid_envelopeId (Number raw) = false →
  (∀ f, ∃ r w',
      run (post_uploads env {| body_envelopeId := raw; file := f |}) w = (r, w')
      ∧ same_stores w w' ∧ is_error r = true
      ∧ (db_up env w → r = Json 400 (BError "Invalid envelopeId")))
  ∧ (∀ param, raw = Some param → ∃ r w',
      run (delete_envelope env param) w = (r, w')
      ∧ same_stores w w' ∧ is_error r = true
      ∧ (db_up env w → r = Json 400 (BError "Invalid envelopeId"))).
Proof.
  intros Hv. split.
  - intros f. by apply post_uploads_invalid.
  - intros param ->. by apply delete_envelope_invalid.
Qed.

(** C7, as the code has it. An upload that carries no file is rejected before
    any mutation: both stores and the log are as they were, the response is
    an error, and it is the 400 "No file uploaded" whenever the database is
    reachable and the [envelopeId] is valid. *)
Theorem missing_file_rejected env w (raw : option string) :
  ∃ r w',
    run (post_uploads env {| body_envelopeId := raw; file := None |}) w = (r, w')
    ∧ same_stores w w' ∧ is_error r = true
    ∧ (db_up env w → valid_envelopeId (Number raw) = true →
       r = Json 400 (BError "No file uploaded")).
Proof.
  rewrite post_uploads_eq. simpl.
  destruct (if isConnected w then None else connect_error env) eqn:E.
  - eexists _, _. split_and!; [done | apply same_stores_refl | done |].
    intros Hup%db_up_connects. congruence.
  - destruct (valid_envelopeId (Number raw)); simpl;
      eexists _, _; (split_and!; [done | apply same_stores_connected | done | done]).
Qed.

(** ** What a run leaves in the stores *)

Lemma blob_deleted_catalog env id w : catalog (blob_deleted env id w) = catalog w.
Proof. unfold blob_deleted. by destruct (blob_delete_ok env). Qed.

Lemma blob_created_catalog env f id w :
  catalog (blob_created env f id w) = catalog w.
Proof. done. Qed.

Lemma blob_deleted_log env id w :
  log (blob_deleted env id w) = log w ++ [BlobDeleteRequested id].
Proof. unfold blob_deleted. by destruct (blob_delete_ok env). Qed.

Lemma blob_deleted_files env id w :
  blob_delete_ok env = true →
  files (blob_deleted env id w) = delete id (files w).
Proof. unfold blob_deleted. by intros ->. Qed.

Lemma new_events_app w w' evs : log w' = log w ++ evs → new_events w w' = evs.
Proof. unfold new_events. intros ->. by rewrite drop_app_length. Qed.

Lemma remove_doc_found envelopeId docs :
  (remove_doc envelopeId docs).2 = List.find (matches envelopeId) docs.
Proof.
  induction docs as [|d docs IH]; simpl; [done|].
  destruct (matches envelopeId d); [done|].
  by destruct (remove_doc envelopeId docs).
Qed.

Lemma find_absent envelopeId docs :
  envelopeId ∉ d_envelopeId <$> docs →
  List.find (matches envelopeId) docs = None.
Proof.
  induction docs as [|d docs IH]; simpl; [done|].
  intros Hn. apply not_elem_of_cons in Hn as [Hd Hn].
  unfold matches at 1. rewrite bool_decide_eq_false_2 by done. by apply IH.
Qed.

(** C9. Deleting an envelope that has no catalog entry is not an error: for a
    valid [envelopeId] and a reachable catalog the answer is
    [{ ok: true, deleted: false }], and the catalog, the blob store and the
    log of store requests are as they were. *)
Theorem delete_absent_is_noop env w (param : string) (z : Z) :
  db_up env w → remove_error env = None →
  Number (Some param) = Int z → 0 ≤ z →
  Int z ∉ d_envelopeId <$> catalog w →
  ∃ w', run (delete_envelope env param) w = (Json 200 (BDeleted true false), w')
        ∧ same_stores w w'.
Proof.
  intros Hup%db_up_connects Hrm Hnum Hz Habs.
  rewrite delete_envelope_eq, Hup. cbv zeta. rewrite Hnum, Hrm.
  assert (valid_envelopeId (Int z) = true) as -> by (apply valid_envelopeId_Int; eauto).
  rewrite remove_doc_found, find_absent by done. simpl.
  eexists. split; [done | apply same_stores_connected].
Qed.

(** C6. When the blob write fails, the upload leaves the catalog untouched: no
    upsert is acknowledged during the run, the catalog after it is the
    catalog before it (so the old entry of the envelope, if any, is there
    unmodified), and the caller gets an error, which is the 500 carrying the
    write's message whenever the run gets as far as the write. *)
Theorem blob_write_failure_leaves_catalog env req w (msg : string) :
  upload_error env = Some msg →
  ∃ r w', run (post_uploads env req) w = (r, w')
    ∧ catalog w' = catalog w
    ∧ (∀ envelopeId, List.find (matches envelopeId) (catalog w') =
                     List.find (matches envelopeId) (catalog w))
    ∧ (∀ e s, CatalogUpserted e s ∉ new_events w w')
    ∧ is_error r = true
    ∧ (db_up env w → valid_envelopeId (Number (body_envelopeId req)) = true →
       is_Some (file req) → find_error env = None →
       r = Json 500 (BError (message_or msg "Upload failed"))).
Proof.
  intros Hup. rewrite post_uploads_eq. cbv zeta. rewrite Hup.
  assert (∀ r w', catalog w' = catalog w →
            (∀ e s, CatalogUpserted e s ∉ new_events w w') →
            is_error r = true →
            (db_up env w → valid_envelopeId (Number (body_envelopeId req)) = true →
             is_Some (file req) → find_error env = None →
             r = Json 500 (BError (message_or msg "Upload failed"))) →
            ∃ r0 w0, (r, w') = (r0, w0) ∧ catalog w0 = catalog w
              ∧ (∀ envelopeId, List.find (matches envelopeId) (catalog w0) =
                               List.find (matches envelopeId) (catalog w))
              ∧ (∀ e s, CatalogUpserted e s ∉ new_events w w0)
              ∧ is_error r0 = true
              ∧ (db_up env w →
                 valid_envelopeId (Number (body_envelopeId req)) = true →
                 is_Some (file req) → find_error env = None →
                 r0 = Json 500 (BError (message_or msg "Upload failed")))) as Hpack.
  { intros r w' Hc Hl He Hr. exists r, w'. split_and!; try done.
    intros envelopeId. by rewrite Hc. }
  assert (∀ w0, log w0 = log w → ∀ e s, CatalogUpserted e s ∉ new_events w w0)
    as Hquiet.
  { intros w0 Hl e s. rewrite (new_events_app w w0 []); [apply not_elem_of_nil|].
    by rewrite app_nil_r. }
  destruct (if isConnected w then None else connect_error env) eqn:E.
  { apply Hpack; [done | by apply Hquiet | done |].
    intros Hdb%db_up_connects. congruence. }
  destruct (valid_envelopeId _) eqn:Ev; simpl.
  2:{ apply Hpack; [done | by apply Hquiet | done | done]. }
  destruct (file req) as [f|] eqn:Ef.
  2:{ apply Hpack; [done | by apply Hquiet | done |]. by intros _ _ [? ?]. }
  destruct (find_error env) eqn:Efind.
  { apply Hpack; [done | by apply Hquiet | done | done]. }
  destruct (List.find _ (catalog w) ≫= blob_of) as [id|].
  - apply Hpack; [exact (blob_deleted_catalog _ _ _) | | done | done].
    intros e s. rewrite (new_events_app w _ [BlobDeleteRequested id]).
    + intros Hin%list_elem_of_singleton. done.
    + exact (blob_deleted_log _ _ _).
  - apply Hpack; [done | by apply Hquiet | done | done].
Qed.

Lemma invalid_envelopeId_rejected_witness :
  (∀ f, ∃ r w',
      run (post_uploads ok_env {| body_envelopeId := Some "-1"%string; file := f |})
        after_first_upload = (r, w')
      ∧ same_stores after_first_upload w' ∧ is_error r = true
      ∧ (db_up ok_env after_first_upload →
         r = Json 400 (BError "Invalid envelopeId")))
  ∧ (∀ param, Some "-1"%string = Some param → ∃ r w',
      run (delete_envelope ok_env param) after_first_upload = (r, w')
      ∧ same_stores after_first_upload w' ∧ is_error r = true
      ∧ (db_up ok_env after_first_upload →
         r = Json 400 (BError "Invalid envelopeId"))).
Proof.
  apply (invalid_envelopeId_rejected ok_env after_first_upload (Some "-1"%string)).
  reflexivity.
Defined.

Example abc_is_not_an_envelopeId :
  Number (Some "abc"%string) = NaN ∧ valid_envelopeId (Number (Some "abc"%string)) = false.
Proof. split; reflexivity. Qed.

Lemma delete_absent_is_noop_witness :
  ∃ w', run (delete_envelope ok_env "8") after_first_upload
        = (Json 200 (BDeleted true false), w')
        ∧ same_stores after_first_upload w'.
Proof.
  apply (delete_absent_is_noop ok_env after_first_upload "8" 8).
  - by right.
  - reflexivity.
  - reflexivity.
  - lia.
  - vm_compute. intros H. apply list_elem_of_singleton in H. discriminate H.
Defined.

Lemma blob_write_failure_leaves_catalog_witness :
  ∃ r w',
    run (post_uploads (second_env (Some "write failed"%string) None)
           {| body_envelopeId := Some "7"%string; file := Some dog_png |})
      after_first_upload = (r, w')
    ∧ catalog w' = catalog after_first_upload
    ∧ (∀ envelopeId, List.find (matches envelopeId) (catalog w') =
                     List.find (matches envelopeId) (catalog after_first_upload))
    ∧ (∀ e s, CatalogUpserted e s ∉ new_events after_first_upload w')
    ∧ is_error r = true
    ∧ (db_up (second_env (Some "write failed"%string) None) after_first_upload →
       valid_envelopeId (Number (Some "7"%string)) = true →
       is_Some (Some dog_png) →
       find_error (second_env (Some "write failed"%string) None) = None →
       r = Json 500 (BError (message_or "write failed" "Upload failed"))).
Proof.
  apply (blob_write_failure_leaves_catalog
           (second_env (Some "write failed"%string) None)
           {| body_envelopeId := Some "7"%string; file := Some dog_png |}
           after_first_upload "write failed").
  reflexivity.
Defined.

(** ** Failure of the catalog write *)

(** C4, as the code has it. When the catalog upsert fails after the new blob
    was written, the caller gets the 500 carrying the catalog's message and
    the catalog is what it was before the request, so the entry the envelope
    had, if any, is still its answer.  No deletion of the new blob is
    attempted: its creation is the last request the run sends to the stores,
    and the blob is still in the bucket when the handler returns. *)
Theorem catalog_write_failure_keeps_catalog_and_blob
    env w (raw : option string) (f : File) (z : Z) (msg : string) :
  upsert_error env = Some msg →
  db_up env w → Number raw = Int z → 0 ≤ z →
  find_error env = None → upload_error env = None →
  ∃ w', run (post_uploads env {| body_envelopeId := raw; file := Some f |}) w
        = (Json 500 (BError (message_or msg "Upload failed")), w')
    ∧ catalog w' = catalog w
    ∧ (∀ envelopeId, List.find (matches envelopeId) (catalog w') =
                     List.find (matches envelopeId) (catalog w))
    ∧ files w' !! new_file_id env = Some (grid_file_of f (Int z))
    ∧ last (log w') = Some (BlobCreated (new_file_id env)).
Proof.
  intros Hups Hup%db_up_connects Hnum Hz Hfind Hupl.
  rewrite post_uploads_eq, Hup. cbv zeta. simpl body_envelopeId. simpl file.
  rewrite Hnum, Hfind, Hupl, Hups.
  assert (valid_envelopeId (Int z) = true) as -> by (apply valid_envelopeId_Int; eauto).
  simpl negb. cbv iota.
  eexists. split; [done|].
  assert (∀ w2, catalog w2 = catalog w →
            catalog (blob_created env f (Int z) w2) = catalog w) as Hcat by done.
  destruct (List.find _ (catalog w) ≫= blob_of) as [id|]; split_and!.
  - apply Hcat. exact (blob_deleted_catalog _ _ _).
  - intros envelopeId. by rewrite Hcat by exact (blob_deleted_catalog _ _ _).
  - apply lookup_insert_eq.
  - apply last_snoc.
  - done.
  - done.
  - apply lookup_insert_eq.
  - apply last_snoc.
Qed.

Lemma catalog_write_failure_keeps_catalog_and_blob_witness :
  ∃ w', run (post_uploads (second_env None (Some "catalog down"%string))
               {| body_envelopeId := Some "7"%string; file := Some dog_png |})
          after_first_upload
        = (Json 500 (BError (message_or "catalog down" "Upload failed")), w')
    ∧ catalog w' = catalog after_first_upload
    ∧ (∀ envelopeId, List.find (matches envelopeId) (catalog w') =
                     List.find (matches envelopeId) (catalog after_first_upload))
    ∧ files w' !! 2%N = Some (grid_file_of dog_png (Int 7))
    ∧ last (log w') = Some (BlobCreated 2).
Proof.
  apply (catalog_write_failure_keeps_catalog_and_blob
           (second_env None (Some "catalog down"%string)) after_first_upload
           (Some "7"%string) dog_png 7 "catalog down").
  - reflexivity.
  - by right.
  - reflexivity.
  - lia.
  - reflexivity.
  - reflexivity.
Defined.

(** C4, as stated, fails: the upsert of a first upload for envelope 7 fails
    after blob 1 was written; the handler answers 500, and the only request
    it ever sent to the stores is the creation of blob 1, which stays in the
    bucket although no catalog entry refers to it. *)
Lemma catalog_write_failure_no_cleanup :
  let env :=
    {| connect_error := None; find_error := None; upload_error := None;
       upsert_error := Some "catalog down"%string; remove_error := None;
       files_find_error := None; download_ok := true; blob_delete_ok := true;
       new_file_id := 1; new_doc_id := 1; now := 0 |} in
  let '(r, w') :=
    run (post_uploads env {| body_envelopeId := Some "7"%string;
                             file := Some cat_png |}) initial in
  (log w' = [BlobCreated 1]
   ∧ r = Json 500 (BError "catalog down")
   ∧ (BlobDeleteRequested 1 ∉ log w')
   ∧ files w' !! 1%N = Some (grid_file_of cat_png (Int 7))
   ∧ catalog w' = []).
Proof.
  vm_compute. split_and!; try reflexivity.
  intros H. apply list_elem_of_singleton in H. discriminate H.
Qed.

Lemma missing_file_rejected_witness :
  ∃ r w',
    run (post_uploads ok_env {| body_envelopeId := Some "7"%string; file := None |})
      after_first_upload = (r, w')
    ∧ same_stores after_first_upload w' ∧ is_error r = true
    ∧ (db_up ok_env after_first_upload →
       valid_envelopeId (Number (Some "7"%string)) = true →
       r = Json 400 (BError "No file uploaded")).
Proof. apply (missing_file_rejected ok_env after_first_upload (Some "7"%string)). Defined.

Example missing_file_answer :
  (run (post_uploads ok_env {| body_envelopeId := Some "7"%string; file := None |})
     initial).1 = Json 400 (BError "No file uploaded").
Proof. reflexivity. Qed.

(** C7, as stated, fails for an empty byte stream: a file of zero bytes is a
    file, the handler stores it as a blob of no bytes and upserts the
    catalog entry of the envelope. *)
Lemma empty_file_accepted :
  let '(r, w') :=
    run (post_uploads ok_env {| body_envelopeId := Some "7"%string;
                                file := Some empty_png |}) initial in
  (is_error r = false
   ∧ g_data <$> files w' !! 1%N = Some []
   ∧ d_size <$> catalog w' = [0%N]
   ∧ log w' = [BlobCreated 1; CatalogUpserted (Int 7) "000000000000000000000001"]).
Proof. vm_compute. by split_and!. Qed.

(** ** The order of blob deletion and catalog update *)

(** C1, on the code. A successful upload for an envelope whose entry refers
    to a blob sends exactly three requests to the stores, in this order: the
    deletion of the old blob, the creation of the new one, the catalog
    upsert.  The deletion is requested before the upsert, not after it. *)
Theorem put_requests_deletion_before_upsert
    env w (raw : option string) (f : File) (z : Z) (d : Doc) (old : N) :
  db_up env w → Number raw = Int z → 0 ≤ z →
  find_error env = None → upload_error env = None → upsert_error env = None →
  List.find (matches (Int z)) (catalog w) = Some d → blob_of d = Some old →
  ∃ v w', run (post_uploads env {| body_envelopeId := raw; file := Some f |}) w
          = (Json 200 (BEntry v), w')
    ∧ new_events w w' =
        [BlobDeleteRequested old; BlobCreated (new_file_id env);
         CatalogUpserted (Int z) (ObjectId.toString (new_file_id env))].
Proof.
  intros Hup%db_up_connects Hnum Hz Hfind Hupl Hups Hd Hold.
  rewrite post_uploads_eq, Hup. cbv zeta. simpl body_envelopeId. simpl file.
  rewrite Hnum, Hfind, Hupl, Hups, Hd. simpl mbind. rewrite Hold.
  assert (valid_envelopeId (Int z) = true) as -> by (apply valid_envelopeId_Int; eauto).
  simpl negb. cbv iota.
  eexists _, _. split; [done|].
  apply new_events_app. unfold upserted, blob_created. simpl.
  rewrite blob_deleted_log. simpl. by rewrite <- !app_assoc.
Qed.

Lemma put_requests_deletion_before_upsert_witness :
  ∃ v w', run (post_uploads (second_env None None)
                 {| body_envelopeId := Some "7"%string; file := Some dog_png |})
            after_first_upload
          = (Json 200 (BEntry v), w')
    ∧ new_events after_first_upload w' =
        [BlobDeleteRequested 1; BlobCreated 2;
         CatalogUpserted (Int 7) (ObjectId.toString 2)].
Proof.
  apply (put_requests_deletion_before_upsert (second_env None None)
           after_first_upload (Some "7"%string) dog_png 7
           {| d_id := 1; d_envelopeId := Int 7;
              d_url := "/api/files/000000000000000000000001";
              d_originalName := "cat.png"; d_mimeType := "image/png";
              d_size := 3; d_fileId := Some "000000000000000000000001"%string;
              d_createdAt := 0 |} 1).
  - by right.
  - reflexivity.
  - lia.
  - reflexivity.
  - reflexivity.
  - reflexivity.
  - reflexivity.
  - reflexivity.
Defined.

(** C2, on the code. An upload whose blob write fails, for an envelope whose
    entry refers to a blob: the old blob's deletion has gone through by then,
    and the handler answers 500 with the catalog as it was.  The entry is
    still live and still refers to the blob, which is no longer in the
    bucket. *)
Theorem put_deletes_blob_of_live_entry
    env w (raw : option string) (f : File) (z : Z) (d : Doc) (old : N)
    (msg : string) :
  db_up env w → Number raw = Int z → 0 ≤ z → find_error env = None →
  blob_delete_ok env = true → upload_error env = Some msg →
  List.find (matches (Int z)) (catalog w) = Some d → blob_of d = Some old →
  ∃ w', run (post_uploads env {| body_envelopeId := raw; file := Some f |}) w
        = (Json 500 (BError (message_or msg "Upload failed")), w')
    ∧ BlobDeleteRequested old ∈ new_events w w'
    ∧ List.find (matches (Int z)) (catalog w') = Some d
    ∧ referenced (catalog w') old
    ∧ files w' !! old = None.
Proof.
  intros Hup%db_up_connects Hnum Hz Hfind Hdel Hupl Hd Hold.
  rewrite post_uploads_eq, Hup. cbv zeta. simpl body_envelopeId. simpl file.
  rewrite Hnum, Hfind, Hupl, Hd. simpl mbind. rewrite Hold.
  assert (valid_envelopeId (Int z) = true) as -> by (apply valid_envelopeId_Int; eauto).
  simpl negb. cbv iota.
  eexists. split; [done|]. split_and!.
  - rewrite (new_events_app w _ [BlobDeleteRequested old]).
    + by apply list_elem_of_singleton.
    + exact (blob_deleted_log _ _ _).
  - by rewrite blob_deleted_catalog.
  - exists d. split; [|done]. rewrite blob_deleted_catalog. simpl.
    apply list_elem_of_In. by apply find_some in Hd as [? _].
  - rewrite blob_deleted_files by done. apply lookup_delete_eq.
Qed.

Lemma put_deletes_blob_of_live_entry_witness :
  ∃ w', run (post_uploads (second_env (Some "write failed"%string) None)
               {| body_envelopeId := Some "7"%string; file := Some dog_png |})
          after_first_upload
        = (Json 500 (BError (message_or "write failed" "Upload failed")), w')
    ∧ BlobDeleteRequested 1 ∈ new_events after_first_upload w'
    ∧ List.find (matches (Int 7)) (catalog w') =
        Some {| d_id := 1; d_envelopeId := Int 7;
                d_url := "/api/files/000000000000000000000001";
                d_originalName := "cat.png"; d_mimeType := "image/png";
                d_size := 3; d_fileId := Some "000000000000000000000001"%string;
                d_createdAt := 0 |}
    ∧ referenced (catalog w') 1
    ∧ files w' !! 1%N = None.
Proof.
  apply (put_deletes_blob_of_live_entry
           (second_env (Some "write failed"%string) None)
           after_first_upload (Some "7"%string) dog_png 7 _ 1 "write failed").
  - by right.
  - reflexivity.
  - lia.
  - reflexivity.
  - reflexivity.
  - reflexivity.
  - reflexivity.
  - reflexivity.
Defined.

(** ** The listing of GET /api/uploads *)

#[global] Instance newer_first_trans : Transitive newer_first.
Proof. unfold newer_first. intros a b c ??. lia. Qed.

#[global] Instance newer_first_total : Total newer_first.
Proof. unfold newer_first. intros a b. lia. Qed.

Lemma StronglySorted_sublist {A} (R : relation A) (l k : list A) :
  l `sublist_of` k → StronglySorted R k → StronglySorted R l.
Proof.
  induction 1 as [|x l k Hs IH|x l k Hs IH]; intros Hk; [done| |].
  - apply StronglySorted_inv in Hk as [Hk Hall]. constructor; [by apply IH|].
    apply Forall_forall. intros y Hy. rewrite Forall_forall in Hall.
    apply Hall. by eapply elem_of_sublist.
  - apply StronglySorted_inv in Hk as [Hk _]. by apply IH.
Qed.

Lemma filter_all {A} (P : A → Prop) `{∀ x, Decision (P x)} (l : list A) :
  (∀ x, x ∈ l → P x) → filter P l = l.
Proof.
  induction l as [|x l IH]; intros Hall; [done|].
  rewrite filter_cons_True by (apply Hall; left).
  f_equal. apply IH. intros y Hy. apply Hall. by right.
Qed.

Lemma get_uploads_eq uploadDir env w :
  run (get_uploads uploadDir env) w =
  match (if isConnected w then None else connect_error env) with
  | Some msg => (Unhandled msg, w)
  | None =>
      match find_error env with
      | Some msg => (Unhandled msg, connected w)
      | None =>
          (Json 200 (BList (view <$> filter (λ d, ¬ hidden uploadDir d)
                              (take 200 (merge_sort newer_first (catalog w))))),
           connected w)
      end
  end.
Proof.
  unfold run, get_uploads, Upload_find_newest, mbind, M_bind, backend, get_world.
  rewrite ensureDb_eq.
  destruct (if isConnected w then None else connect_error env); simpl; [done|].
  by destruct (find_error env).
Qed.

(** C8. With the catalog reachable, the listing answers with entries of the
    catalog, newest [createdAt] first (each entry is at least as new as every
    entry after it) and at most 200 of them; the catalog itself is not
    changed.  A catalog of at most 200 entries, none of them hidden by the
    [fileId] filter, is listed in full. *)
Theorem get_uploads_sorted_bounded uploadDir env w :
  db_up env w → find_error env = None →
  ∃ vs w', run (get_uploads uploadDir env) w = (Json 200 (BList vs), w')
    ∧ same_stores w w'
    ∧ StronglySorted newer_first_view vs
    ∧ (length vs ≤ 200)%nat
    ∧ (∀ v, v ∈ vs → ∃ d, d ∈ catalog w ∧ v = view d)
    ∧ ((length (catalog w) ≤ 200)%nat →
       (∀ d, d ∈ catalog w → ¬ hidden uploadDir d) →
       vs ≡ₚ view <$> catalog w).
Proof.
  intros Hup%db_up_connects Hfind. rewrite get_uploads_eq, Hup, Hfind.
  eexists _, _. split; [done|]. split; [apply same_stores_connected|].
  set (sorted := merge_sort newer_first (catalog w)).
  assert (filter (λ d, ¬ hidden uploadDir d) (take 200 sorted) `sublist_of` sorted)
    as Hsub by (etrans; [apply sublist_filter | apply sublist_take]).
  split_and!.
  - apply (StronglySorted_fmap _ newer_first); [done|].
    eapply StronglySorted_sublist; [done|]. apply StronglySorted_merge_sort; apply _.
  - rewrite length_fmap. etrans; [apply length_filter|].
    rewrite length_take. lia.
  - intros v (d & -> & Hd)%list_elem_of_fmap. exists d. split; [|done].
    eapply elem_of_sublist in Hd; [|done].
    unfold sorted in Hd. by rewrite merge_sort_Permutation in Hd.
  - intros Hlen Hshown.
    rewrite take_ge by (unfold sorted; by rewrite merge_sort_Permutation).
    rewrite filter_all.
    + unfold sorted. by rewrite merge_sort_Permutation.
    + intros d Hd. apply Hshown. unfold sorted in Hd.
      by rewrite merge_sort_Permutation in Hd.
Qed.

Lemma get_uploads_sorted_bounded_witness :
  ∃ vs w', run (get_uploads None ok_env) after_first_upload = (Json 200 (BList vs), w')
    ∧ same_stores after_first_upload w'
    ∧ StronglySorted newer_first_view vs
    ∧ (length vs ≤ 200)%nat
    ∧ (∀ v, v ∈ vs → ∃ d, d ∈ catalog after_first_upload ∧ v = view d)
    ∧ ((length (catalog after_first_upload) ≤ 200)%nat →
       (∀ d, d ∈ catalog after_first_upload → ¬ hidden None d) →
       vs ≡ₚ view <$> catalog after_first_upload).
Proof.
  apply (get_uploads_sorted_bounded None ok_env after_first_upload).
  - by right.
  - reflexivity.
Defined.

(** ** Object ids and urls read back *)

Lemma digit_value_hex_digit (d : N) :
  (d < 16)%N → digit_value 16 (ObjectId.hex_digit d) = Some (Z.of_N d).
Proof.
  intros Hd. destruct d as [|p]; [reflexivity|].
  do 4 (destruct p as [p|p|]; try reflexivity; try lia).
Qed.

Lemma unhex_hex (width : nat) (acc n : N) :
  ObjectId.unhex acc (ObjectId.hex width n)
  = Some (acc * 16 ^ N.of_nat width + n mod 16 ^ N.of_nat width)%N.
Proof.
  revert acc. induction width as [|width IH]; intros acc.
  - simpl. f_equal. rewrite N.mod_1_r. lia.
  - cbn [ObjectId.hex ObjectId.unhex].
    rewrite digit_value_hex_digit by (apply N.mod_upper_bound; lia).
    rewrite N2Z.id, IH. f_equal.
    rewrite Nat2N.inj_succ, N.pow_succ_r'.
    rewrite (N.mul_comm 16 (16 ^ N.of_nat width)).
    rewrite N.Div0.mod_mul_r. lia.
Qed.

Lemma length_hex (width : nat) (n : N) : String.length (ObjectId.hex width n) = width.
Proof. induction width; simpl; congruence. Qed.

Lemma parse_toString (id : N) :
  (id < 2 ^ 96)%N → ObjectId.parse (ObjectId.toString id) = Some id.
Proof.
  intros Hid. unfold ObjectId.parse, ObjectId.toString.
  rewrite length_hex, Nat.eqb_refl, unhex_hex. f_equal.
  change (16 ^ N.of_nat 24)%N with (2 ^ 96)%N.
  rewrite N.mod_small by done. lia.
Qed.

Lemma truthy_toString (id : N) : truthy (Some (ObjectId.toString id)) = true.
Proof. reflexivity. Qed.

Lemma substring_all (s : string) : String.substring 0 (String.length s) s = s.
Proof. induction s; simpl; congruence. Qed.

Lemma route_files_url (id : string) : route_files ("/api/files/" +:+ id) = Some id.
Proof.
  unfold route_files. simpl. change ("" +:+ id)%string with id.
  rewrite Nat.sub_0_r, substring_all. by destruct id.
Qed.

Lemma trim_blank (s : string) : blank s = true → trim s = EmptyString.
Proof.
  unfold trim. induction s as [|c s IH]; simpl; [done|].
  intros [Hc Hs]%andb_true_iff. rewrite Hc. by apply IH.
Qed.

Lemma Number_blank (s : string) : blank s = true → Number (Some s) = Int 0.
Proof. intros Hs. unfold Number, StringToNumber. by rewrite trim_blank. Qed.

(** ** The catalog after an upsert, and what GET /api/envelopes shows of it *)

Lemma upsert_docs_find env envelopeId u docs :
  List.find (matches envelopeId) (upsert_docs env envelopeId u docs).1
  = Some (upsert_docs env envelopeId u docs).2.
Proof.
  induction docs as [|d docs IH]; simpl.
  - unfold matches. by rewrite bool_decide_eq_true_2.
  - destruct (matches envelopeId d) eqn:Em; simpl.
    + unfold matches. by rewrite bool_decide_eq_true_2.
    + destruct (upsert_docs env envelopeId u docs) as [docs' r]. simpl in *.
      by rewrite Em.
Qed.

Lemma upsert_docs_fields env envelopeId u docs :
  let d := (upsert_docs env envelopeId u docs).2 in
  d_envelopeId d = envelopeId ∧ d_url d = u_url u
  ∧ d_originalName d = u_originalName u ∧ d_mimeType d = u_mimeType u
  ∧ d_size d = u_size u ∧ d_fileId d = Some (u_fileId u).
Proof.
  induction docs as [|d docs IH]; simpl; [done|].
  destruct (matches envelopeId d); simpl; [done|].
  by destruct (upsert_docs env envelopeId u docs).
Qed.

Lemma upsert_docs_envelopeIds env envelopeId u docs :
  d_envelopeId <$> (upsert_docs env envelopeId u docs).1
  = if decide (envelopeId ∈ d_envelopeId <$> docs)
    then d_envelopeId <$> docs
    else (d_envelopeId <$> docs) ++ [envelopeId].
Proof.
  induction docs as [|d docs IH]; [done|].
  cbn [upsert_docs]. rewrite (fmap_cons d_envelopeId d docs).
  unfold matches. case_bool_decide as Hd.
  - rewrite decide_True by (rewrite Hd; left). by rewrite <- Hd.
  - destruct (upsert_docs env envelopeId u docs) as [docs' r].
    cbn [fst] in *. rewrite fmap_cons, IH.
    destruct (decide (envelopeId ∈ d_envelopeId <$> docs)) as [Hin|Hin].
    + by rewrite decide_True by (by right).
    + rewrite decide_False; [done|].
      intros [?|?]%elem_of_cons; congruence.
Qed.

Lemma upsert_docs_unique env envelopeId u docs :
  unique_envelopes docs → unique_envelopes (upsert_docs env envelopeId u docs).1.
Proof.
  unfold unique_envelopes. rewrite upsert_docs_envelopeIds.
  case_decide as Hin; [done|]. intros Hnd.
  apply NoDup_app. split_and!; [done| |apply NoDup_singleton].
  intros x Hx ->%list_elem_of_singleton. done.
Qed.

Lemma remove_doc_sublist envelopeId docs :
  (remove_doc envelopeId docs).1 `sublist_of` docs.
Proof.
  induction docs as [|d docs IH]; simpl; [done|].
  destruct (matches envelopeId d); simpl; [by apply sublist_cons|].
  destruct (remove_doc envelopeId docs). by apply sublist_skip.
Qed.

Lemma remove_doc_unique envelopeId docs :
  unique_envelopes docs → unique_envelopes (remove_doc envelopeId docs).1.
Proof.
  unfold unique_envelopes. intros Hnd.
  apply (sublist_NoDup _ (d_envelopeId <$> docs)); [done|].
  apply (fmap_sublist d_envelopeId), remove_doc_sublist.
Qed.

Lemma collect_other uploadDir acc d z :
  d_envelopeId d ≠ Int z → collect uploadDir acc d !! z = acc !! z.
Proof.
  intros Hne. unfold collect.
  destruct (d_envelopeId d) as [| |z'|]; simpl; try done.
  destruct (z' <? 0); [done|]. destruct (hidden uploadDir d); [done|].
  apply lookup_insert_ne. congruence.
Qed.

Lemma collect_lookup uploadDir docs acc z :
  0 ≤ z → unique_envelopes docs →
  foldl (collect uploadDir) acc docs !! z
  = match List.find (matches (Int z)) docs with
    | Some d => if hidden uploadDir d then acc !! z else Some (view d)
    | None => acc !! z
    end.
Proof.
  intros Hz. revert acc. unfold unique_envelopes.
  induction docs as [|d docs IH]; intros acc Hnd; [done|].
  apply NoDup_cons in Hnd as [Hd Hnd]. simpl. rewrite IH by done.
  unfold matches at 2. case_bool_decide as Em.
  - rewrite Em in Hd. rewrite find_absent by done.
    unfold collect. rewrite Em. simpl.
    rewrite (proj2 (Z.ltb_ge z 0)) by done.
    destruct (hidden uploadDir d); [done|]. apply lookup_insert_eq.
  - rewrite collect_other by done. done.
Qed.

Lemma get_envelopes_eq uploadDir env w :
  run (get_envelopes uploadDir env) w =
  match (if isConnected w then None else connect_error env) with
  | Some msg => (Unhandled msg, w)
  | None =>
      match find_error env with
      | Some msg => (Unhandled msg, connected w)
      | None => (Json 200 (BMap (foldl (collect uploadDir) ∅ (catalog w))),
                 connected w)
      end
  end.
Proof.
  unfold run, get_envelopes, Upload_find, mbind, M_bind, backend, get_world.
  rewrite ensureDb_eq.
  destruct (if isConnected w then None else connect_error env); simpl; [done|].
  by destruct (find_error env).
Qed.

Lemma get_file_eq env id w :
  run (get_file env id) w =
  match (if isConnected w then None else connect_error env) with
  | Some msg => (End 400 "Bad request", w)
  | None =>
      let w1 := connected w in
      if negb (truthy (Some id)) then (End 400 "Missing id", w1)
      else
        match ObjectId.parse id with
        | None => (End 400 "Bad request", w1)
        | Some objectId =>
            match files_find_error env with
            | Some _ => (End 400 "Bad request", w1)
            | None =>
                match files w !! objectId with
                | None => (End 404 "Not found", w1)
                | Some f =>
                    if download_ok env
                    then (Stream (if truthy (Some (g_contentType f))
                                  then Some (g_contentType f) else None)
                            "public, max-age=31536000, immutable" (g_data f), w1)
                    else (End 404 "Not found", w1)
                end
            end
        end
  end.
Proof.
  unfold run, get_file, try_catch, new_ObjectId, mbind, M_bind, backend, get_world.
  rewrite ensureDb_eq.
  destruct (if isConnected w then None else connect_error env); simpl; [done|].
  destruct (negb _); simpl; [done|].
  destruct (ObjectId.parse id); simpl; [|done].
  destruct (files_find_error env); simpl; [done|].
  destruct (files w !! _); simpl; [|done].
  by destruct (download_ok env).
Qed.

(** ** A successful upload, and reading it back *)

Lemma post_uploads_success env w (raw : option string) (f : File) (z : Z) :
  db_up env w → find_error env = None → upload_error env = None →
  upsert_error env = None → Number raw = Int z → 0 ≤ z →
  ∃ w', run (post_uploads env {| body_envelopeId := raw; file := Some f |}) w
        = (Json 200 (BEntry (view
             (upsert_docs env (Int z) (fields_for env f) (catalog w)).2)), w')
    ∧ isConnected w' = true
    ∧ catalog w' = (upsert_docs env (Int z) (fields_for env f) (catalog w)).1
    ∧ files w' !! new_file_id env = Some (grid_file_of f (Int z))
    ∧ CatalogUpserted (Int z) (ObjectId.toString (new_file_id env)) ∈ new_events w w'.
Proof.
  intros Hup%db_up_connects Hfind Hupl Hups Hnum Hz.
  rewrite post_uploads_eq, Hup. cbv zeta. simpl body_envelopeId. simpl file.
  rewrite Hnum, Hfind, Hupl, Hups.
  assert (valid_envelopeId (Int z) = true) as -> by (apply valid_envelopeId_Int; eauto).
  simpl negb. cbv iota.
  destruct (List.find _ (catalog w) ≫= blob_of) as [old|].
  - eexists. split; [by rewrite blob_created_catalog, blob_deleted_catalog|].
    split_and!.
    + unfold blob_deleted. by destruct (blob_delete_ok env).
    + simpl. by rewrite blob_deleted_catalog.
    + apply lookup_insert_eq.
    + erewrite new_events_app.
      2:{ simpl. rewrite blob_deleted_log. simpl. by rewrite <- !app_assoc. }
      set_solver.
  - eexists. split; [done|]. split_and!; [done | done | apply lookup_insert_eq |].
    erewrite new_events_app.
    2:{ simpl. by rewrite <- !app_assoc. }
    set_solver.
Qed.

(** C3. After a successful upload of a file for a valid envelope (every
    backend call of the request goes through), the entry the catalog shows
    for that envelope is the one the upload answered with: its name and
    content type are the file's, its size is the number of bytes of the
    buffer, and the blob its url leads to streams back exactly those bytes
    under the file's content type. *)
Theorem put_then_get_roundtrip uploadDir env env' w
    (raw : option string) (f : File) (z : Z) :
  healthy env → healthy env' →
  Number raw = Int z → 0 ≤ z →
  (new_file_id env < 2 ^ 96)%N →
  unique_envelopes (catalog w) →
  f_size f = N.of_nat (length (f_buffer f)) →
  ∃ v w',
    run (post_uploads env {| body_envelopeId := raw; file := Some f |}) w
    = (Json 200 (BEntry v), w')
    ∧ v_envelopeId v = Int z
    ∧ v_originalName v = f_originalname f
    ∧ v_mimeType v = f_mimetype f
    ∧ v_size v = N.of_nat (length (f_buffer f))
    ∧ (∃ m w'', run (get_envelopes uploadDir env') w' = (Json 200 (BMap m), w'')
                ∧ m !! z = Some v)
    ∧ (∃ id w'', route_files (v_url v) = Some id
                 ∧ run (get_file env' id) w'
                   = (Stream (if truthy (Some (f_mimetype f))
                              then Some (f_mimetype f) else None)
                        "public, max-age=31536000, immutable" (f_buffer f), w'')).
Proof.
  intros (Hc & Hfind & Hupl & Hups & _) (_ & Hfind' & _ & _ & _ & Hff' & Hdl')
    Hnum Hz Hid Huniq Hsize.
  destruct (post_uploads_success env w raw f z) as (w' & Hrun & Hconn & Hcat & Hfile & _);
    [by right | done..|].
  pose proof (upsert_docs_fields env (Int z) (fields_for env f) (catalog w))
    as (He & Hurl & Hname & Hmime & Hsz & Hfid).
  eexists _, w'. split; [exact Hrun|]. split_and!; try done.
  - simpl. by rewrite Hsz.
  - rewrite get_envelopes_eq, Hconn, Hfind'. eexists _, _. split; [done|].
    rewrite collect_lookup; [|done|rewrite Hcat; by apply upsert_docs_unique].
    rewrite Hcat, upsert_docs_find. unfold hidden. rewrite Hfid.
    simpl u_fileId. by rewrite truthy_toString, andb_false_r.
  - exists (ObjectId.toString (new_file_id env)). eexists. split.
    + simpl v_url. rewrite Hurl. apply route_files_url.
    + rewrite get_file_eq, Hconn. cbv zeta.
      rewrite truthy_toString, parse_toString, Hff', Hfile, Hdl' by done.
      done.
Qed.

Lemma put_then_get_roundtrip_witness :
  ∃ v w',
    run (post_uploads ok_env {| body_envelopeId := Some "7"%string;
                                file := Some cat_png |}) initial
    = (Json 200 (BEntry v), w')
    ∧ v_envelopeId v = Int 7
    ∧ v_originalName v = "cat.png"%string
    ∧ v_mimeType v = "image/png"%string
    ∧ v_size v = 3%N
    ∧ (∃ m w'', run (get_envelopes None ok_env) w' = (Json 200 (BMap m), w'')
                ∧ m !! 7 = Some v)
    ∧ (∃ id w'', route_files (v_url v) = Some id
                 ∧ run (get_file ok_env id) w'
                   = (Stream (Some "image/png"%string)
                        "public, max-age=31536000, immutable" [x89; x50; x4e], w'')).
Proof.
  apply (put_then_get_roundtrip None ok_env ok_env initial (Some "7"%string) cat_png 7).
  - by repeat split.
  - by repeat split.
  - reflexivity.
  - lia.
  - reflexivity.
  - apply NoDup_nil_2.
  - reflexivity.
Defined.

(** ** What the coercion lets through *)

(** C10. The guard of line 69 is on [Number(envelopeIdRaw)]: a field made of
    white space only, the empty string among them, is coerced to 0, and any
    field coerced to a non-negative integer [z] passes.  The upload then goes
    on for envelope [z]: with every backend call going through it answers
    200 for that envelope, and the catalog entry of envelope [z] now refers
    to the blob just written. *)
Theorem coerced_envelopeId_accepted env w (raw : string) (f : File) (z : Z) :
  (blank raw = true ∧ z = 0) ∨ (Number (Some raw) = Int z ∧ 0 ≤ z) →
  db_up env w → find_error env = None → upload_error env = None →
  upsert_error env = None →
  Number (Some raw) = Int z
  ∧ valid_envelopeId (Number (Some raw)) = true
  ∧ ∃ v w',
      run (post_uploads env {| body_envelopeId := Some raw; file := Some f |}) w
      = (Json 200 (BEntry v), w')
      ∧ v_envelopeId v = Int z
      ∧ CatalogUpserted (Int z) (ObjectId.toString (new_file_id env))
          ∈ new_events w w'
      ∧ d_fileId <$> List.find (matches (Int z)) (catalog w')
        = Some (Some (ObjectId.toString (new_file_id env))).
Proof.
  intros Hraw Hup Hfind Hupl Hups.
  assert (Number (Some raw) = Int z ∧ 0 ≤ z) as [Hnum Hz].
  { destruct Hraw as [[Hb ->]|?]; [|done]. split; [by apply Number_blank | done]. }
  split; [done|]. split; [rewrite Hnum; apply valid_envelopeId_Int; eauto|].
  destruct (post_uploads_success env w (Some raw) f z)
    as (w' & Hrun & _ & Hcat & _ & Hev); try done.
  pose proof (upsert_docs_fields env (Int z) (fields_for env f) (catalog w))
    as (He & _ & _ & _ & _ & Hfid).
  eexists _, w'. split; [exact Hrun|]. split_and!; [done | done |].
  by rewrite Hcat, upsert_docs_find; simpl; rewrite Hfid.
Qed.

Lemma coerced_envelopeId_accepted_witness :
  Number (Some ""%string) = Int 0
  ∧ valid_envelopeId (Number (Some ""%string)) = true
  ∧ ∃ v w',
      run (post_uploads ok_env {| body_envelopeId := Some ""%string;
                                  file := Some cat_png |}) initial
      = (Json 200 (BEntry v), w')
      ∧ v_envelopeId v = Int 0
      ∧ CatalogUpserted (Int 0) (ObjectId.toString 1) ∈ new_events initial w'
      ∧ d_fileId <$> List.find (matches (Int 0)) (catalog w')
        = Some (Some (ObjectId.toString 1)).
Proof.
  apply (coerced_envelopeId_accepted ok_env initial "" cat_png 0).
  - left. split; reflexivity.
  - by right.
  - reflexivity.
  - reflexivity.
  - reflexivity.
Defined.

Example Number_empty : Number (Some ""%string) = Int 0.
Proof. reflexivity. Qed.

Example Number_spaces : Number (Some "   "%string) = Int 0.
Proof. reflexivity. Qed.

Example Number_exponent : Number (Some "1e2"%string) = Int 100.
Proof. reflexivity. Qed.

Example exponent_envelopeId_accepted :
  ∃ v w',
    run (post_uploads ok_env {| body_envelopeId := Some "1e2"%string;
                                file := Some cat_png |}) initial
    = (Json 200 (BEntry v), w')
    ∧ v_envelopeId v = Int 100.
Proof.
  destruct (post_uploads_success ok_env initial (Some "1e2"%string) cat_png 100)
    as (w' & Hrun & _); [by right | done..| lia |].
  eexists _, w'. split; [exact Hrun|].
  by destruct (upsert_docs_fields ok_env (Int 100) (fields_for ok_env cat_png) []).
Qed.

(** ** One entry per envelope (I1), and the delete handler's order *)

Lemma post_uploads_unique env req w :
  unique_envelopes (catalog w) →
  unique_envelopes (catalog (run (post_uploads env req) w).2).
Proof.
  intros Hu. rewrite post_uploads_eq. cbv zeta.
  repeat match goal with
         | |- context [match ?x with _ => _ end] => destruct x
         end; simpl;
    rewrite ?blob_deleted_catalog; simpl; try done; by apply upsert_docs_unique.
Qed.

Lemma delete_envelope_unique env param w :
  unique_envelopes (catalog w) →
  unique_envelopes (catalog (run (delete_envelope env param) w).2).
Proof.
  intros Hu. rewrite delete_envelope_eq. cbv zeta.
  repeat match goal with
         | |- context [match ?x with _ => _ end] => destruct x
         end; simpl;
    rewrite ?blob_deleted_catalog; simpl; try done; by apply remove_doc_unique.
Qed.

Lemma get_file_catalog env id w : catalog (run (get_file env id) w).2 = catalog w.
Proof.
  rewrite get_file_eq. cbv zeta.
  repeat match goal with
         | |- context [match ?x with _ => _ end] => destruct x
         end; done.
Qed.

Lemma serve_unique uploadDir maxFileSize env rq w :
  unique_envelopes (catalog w) →
  unique_envelopes (catalog (run (serve uploadDir maxFileSize env rq) w).2).
Proof.
  intros Hu. destruct rq as [raw image| | |param|id]; simpl.
  - unfold route_post_uploads.
    destruct (multer_single maxFileSize image) as [[code msg]|f];
      [done | by apply post_uploads_unique].
  - rewrite get_uploads_eq.
    by destruct (if isConnected w then _ else _), (find_error env).
  - rewrite get_envelopes_eq.
    by destruct (if isConnected w then _ else _), (find_error env).
  - by apply delete_envelope_unique.
  - by rewrite get_file_catalog.
Qed.

(** I1 as an invariant: started on an empty catalog, the server never holds
    two entries for one envelope, whatever requests it serves and whatever
    the backends do. *)
Lemma reachable_unique_envelopes uploadDir maxFileSize w :
  reachable uploadDir maxFileSize w → unique_envelopes (catalog w).
Proof.
  induction 1 as [|w env rq _ IH]; [apply NoDup_nil_2 | by apply serve_unique].
Qed.

Lemma remove_doc_absent envelopeId docs :
  unique_envelopes docs →
  List.find (matches envelopeId) (remove_doc envelopeId docs).1 = None.
Proof.
  unfold unique_envelopes. induction docs as [|d docs IH]; [done|].
  rewrite fmap_cons. intros [Hd Hnd]%NoDup_cons. cbn [remove_doc].
  unfold matches at 2. case_bool_decide as Em; cbn [fst].
  - apply find_absent. by rewrite <- Em.
  - destruct (remove_doc envelopeId docs) as [docs' r]. cbn [fst find] in *.
    unfold matches at 1. rewrite bool_decide_eq_false_2 by done. by apply IH.
Qed.

(** The delete handler, for comparison: the catalog entry is removed first
    and the deletion of its blob requested after that, when no entry of the
    envelope is left. *)
Lemma delete_envelope_removes_entry_first env w (param : string) (z : Z)
    (d : Doc) (old : N) :
  db_up env w → remove_error env = None →
  Number (Some param) = Int z → 0 ≤ z →
  unique_envelopes (catalog w) →
  List.find (matches (Int z)) (catalog w) = Some d → blob_of d = Some old →
  ∃ w', run (delete_envelope env param) w = (Json 200 (BDeleted true true), w')
    ∧ new_events w w' = [CatalogRemoved (Int z); BlobDeleteRequested old]
    ∧ List.find (matches (Int z)) (catalog w') = None.
Proof.
  intros Hup%db_up_connects Hrm Hnum Hz Hu Hd Hold.
  rewrite delete_envelope_eq, Hup. cbv zeta. rewrite Hnum, Hrm.
  assert (valid_envelopeId (Int z) = true) as -> by (apply valid_envelopeId_Int; eauto).
  rewrite remove_doc_found, Hd, Hold. simpl negb. cbv iota.
  eexists. split; [done|]. split.
  - apply new_events_app. rewrite blob_deleted_log. simpl.
    by rewrite <- app_assoc.
  - rewrite blob_deleted_catalog. simpl. by apply remove_doc_absent.
Qed.

(** What multer hands to the handler: an image, within the size limit, whose
    [size] is the length of its buffer. *)
Lemma multer_single_file maxFileSize (image : option Part) (f : File) :
  multer_single maxFileSize image = inr (Some f) →
  f_size f = N.of_nat (length (f_buffer f))
  ∧ (f_size f ≤ maxFileSize)%N
  ∧ String.prefix "image/" (f_mimetype f) = true.
Proof.
  unfold multer_single, fileFilter. destruct image as [p|]; [|done].
  destruct (truthy (Some (p_mimetype p))); simpl; [|done].
  destruct (String.prefix "image/" (p_mimetype p)) eqn:Ep; simpl; [|done].
  destruct (maxFileSize <? N.of_nat (length (p_content p)))%N eqn:El; [done|].
  intros [= <-]. simpl. split_and!; [done | by apply N.ltb_ge | done].
Qed.

(** ** Connecting, and answering without a database *)

(** [ensureDb] connects once.  With the database reachable it succeeds,
    touches neither store and sets both globals; from then on it neither
    connects again nor changes anything, whatever the backends would
    answer. *)
Theorem ensureDb_connects_once env env' w :
  db_up env w →
  ∃ w1, ensureDb env w = (Ok tt, w1) ∧ same_stores w w1
    ∧ isConnected w1 = true ∧ gfsBucket w1 = true
    ∧ ensureDb env' w1 = (Ok tt, w1).
Proof.
  intros Hup%db_up_connects. exists (connected w).
  rewrite !ensureDb_eq, Hup. by split_and!.
Qed.

Lemma ensureDb_connects_once_witness :
  ∃ w1, ensureDb ok_env initial = (Ok tt, w1) ∧ same_stores initial w1
    ∧ isConnected w1 = true ∧ gfsBucket w1 = true
    ∧ ensureDb (second_env None None) w1 = (Ok tt, w1).
Proof.
  apply (ensureDb_connects_once ok_env (second_env None None) initial). by right.
Defined.

(** When the connection fails, the three handlers that wrap their body in a
    [try] answer with their catch block (500 with the error's message or the
    handler's fallback text, 400 "Bad request" for the file route), the two
    listings leave a rejected promise, and in every case the state is what it
    was: the next request tries to connect again. *)
Theorem db_down_answers uploadDir env w (msg : string) :
  isConnected w = false → connect_error env = Some msg →
  (∀ req, run (post_uploads env req) w
          = (Json 500 (BError (message_or msg "Upload failed")), w))
  ∧ (∀ param, run (delete_envelope env param) w
              = (Json 500 (BError (message_or msg "Delete failed")), w))
  ∧ (∀ id, run (get_file env id) w = (End 400 "Bad request", w))
  ∧ run (get_uploads uploadDir env) w = (Unhandled msg, w)
  ∧ run (get_envelopes uploadDir env) w = (Unhandled msg, w).
Proof.
  intros Hc He. split_and!; intros;
    rewrite ?post_uploads_eq, ?delete_envelope_eq, ?get_file_eq,
      ?get_uploads_eq, ?get_envelopes_eq, Hc, He; done.
Qed.

Lemma db_down_answers_witness :
  let env := {| connect_error := Some ""%string; find_error := None;
                upload_error := None; upsert_error := None;
                remove_error := None; files_find_error := None;
                download_ok := true; blob_delete_ok := true;
                new_file_id := 1; new_doc_id := 1; now := 0 |} in
  (∀ req, run (post_uploads env req) initial
          = (Json 500 (BError "Upload failed"), initial))
  ∧ (∀ param, run (delete_envelope env param) initial
              = (Json 500 (BError "Delete failed"), initial))
  ∧ (∀ id, run (get_file env id) initial = (End 400 "Bad request", initial))
  ∧ run (get_uploads None env) initial = (Unhandled "", initial)
  ∧ run (get_envelopes None env) initial = (Unhandled "", initial).
Proof.
  intros env. apply (db_down_answers None env initial ""); reflexivity.
Defined.

(** The upload and delete handlers always answer, and with one of three
    statuses: their promise is never left rejected, and the status is 200,
    400 or 500. *)
Theorem writers_always_answer env w :
  (∀ req, ∃ status body,
     (run (post_uploads env req) w).1 = Json status body
     ∧ (status = 200 ∨ status = 400 ∨ status = 500)%nat)
  ∧ (∀ param, ∃ status body,
     (run (delete_envelope env param) w).1 = Json status body
     ∧ (status = 200 ∨ status = 400 ∨ status = 500)%nat).
Proof.
  split; intros; rewrite ?post_uploads_eq, ?delete_envelope_eq; cbv zeta;
    repeat match goal with
           | |- context [match ?x with _ => _ end] => destruct x
           end; simpl; eexists _, _; (split; [done|]); tauto.
Qed.

(** The three read handlers never change the catalog, the bucket or the log
    of store requests, whatever the backends answer. *)
Theorem reads_leave_stores uploadDir env w :
  same_stores w (run (get_uploads uploadDir env) w).2
  ∧ same_stores w (run (get_envelopes uploadDir env) w).2
  ∧ (∀ id, same_stores w (run (get_file env id) w).2).
Proof.
  split_and!; intros;
    rewrite ?get_uploads_eq, ?get_envelopes_eq, ?get_file_eq; cbv zeta;
    repeat match goal with
           | |- context [match ?x with _ => _ end] => destruct x
           end; simpl; by split_and!.
Qed.

(** An upload that does not answer 200 leaves the catalog as it was: no entry
    is added or changed by a failed upload. *)
Theorem post_uploads_error_keeps_catalog env req w :
  is_error (run (post_uploads env req) w).1 = true →
  catalog (run (post_uploads env req) w).2 = catalog w.
Proof.
  rewrite post_uploads_eq. cbv zeta.
  repeat match goal with
         | |- context [match ?x with _ => _ end] => destruct x
         end; simpl; rewrite ?blob_deleted_catalog; done.
Qed.

Lemma post_uploads_error_keeps_catalog_witness :
  catalog (run (post_uploads (second_env None (Some "catalog down"%string))
                  {| body_envelopeId := Some "7"%string; file := Some dog_png |})
             after_first_upload).2
  = catalog after_first_upload.
Proof.
  apply (post_uploads_error_keeps_catalog
           (second_env None (Some "catalog down"%string))
           {| body_envelopeId := Some "7"%string; file := Some dog_png |}
           after_first_upload).
  reflexivity.
Defined.

(** ** What multer lets through *)





Lemma multer_single_file_witness :
  f_size cat_png = N.of_nat (length (f_buffer cat_png))
  ∧ (f_size cat_png ≤ 10)%N
  ∧ String.prefix "image/" (f_mimetype cat_png) = true.
Proof.
  apply (multer_single_file 10
           (Some {| p_filename := "cat.png"; p_mimetype := "image/png";
                    p_content := [x89; x50; x4e] |}) cat_png).
  reflexivity.
Defined.

(** ** Isolation between envelopes *)

Lemma upsert_docs_other env envelopeId other u docs :
  other ≠ envelopeId →
  List.find (matches other) (upsert_docs env envelopeId u docs).1
  = List.find (matches other) docs.
Proof.
  intros Hne. induction docs as [|d docs IH]; cbn [upsert_docs].
  - cbn. unfold matches. by rewrite bool_decide_eq_false_2.
  - destruct (matches envelopeId d) eqn:Em; cbn [fst find].
    + apply bool_decide_eq_true in Em.
      unfold matches. rewrite !bool_decide_eq_false_2; [done|congruence|done].
    + destruct (upsert_docs env envelopeId u docs) as [docs' r].
      cbn [fst find] in *. by rewrite IH.
Qed.

Lemma remove_doc_other envelopeId other docs :
  other ≠ envelopeId →
  List.find (matches other) (remove_doc envelopeId docs).1
  = List.find (matches other) docs.
Proof.
  intros Hne. induction docs as [|d docs IH]; cbn [remove_doc]; [done|].
  destruct (matches envelopeId d) eqn:Em; cbn [fst find].
  - apply bool_decide_eq_true in Em.
    unfold matches. rewrite bool_decide_eq_false_2; [done|congruence].
  - destruct (remove_doc envelopeId docs) as [docs' r].
    cbn [fst find] in *. by rewrite IH.
Qed.

Lemma blob_deleted_lookup env old w (h : N) :
  h ≠ old → files (blob_deleted env old w) !! h = files w !! h.
Proof.
  intros Hne. unfold blob_deleted. destruct (blob_delete_ok env); [|done].
  simpl. by apply lookup_delete_ne.
Qed.

Lemma blob_created_lookup env f envelopeId w (h : N) :
  h ≠ new_file_id env →
  files (blob_created env f envelopeId w) !! h = files w !! h.
Proof. intros Hne. simpl. by apply lookup_insert_ne. Qed.

(** An upload for one envelope, whatever comes of it, leaves the catalog
    entry of every other envelope as it was, and touches no blob other than
    the one its own entry referred to and the one it writes. *)
Theorem post_uploads_isolation env req w :
  let envelopeId := Number (body_envelopeId req) in
  let w' := (run (post_uploads env req) w).2 in
  (∀ other, other ≠ envelopeId →
     List.find (matches other) (catalog w') = List.find (matches other) (catalog w))
  ∧ (∀ h, h ≠ new_file_id env →
       List.find (matches envelopeId) (catalog w) ≫= blob_of ≠ Some h →
       files w' !! h = files w !! h).
Proof.
  intros envelopeId w'. subst w'. rewrite post_uploads_eq. cbv zeta.
  fold envelopeId.
  destruct (List.find (matches envelopeId) (catalog w) ≫= blob_of) as [old|] eqn:Eold;
    (split; [intros other Hne | intros h Hnew Hold]);
    repeat match goal with
           | |- context [match ?x with _ => _ end] => destruct x
           end; simpl; rewrite ?blob_deleted_catalog; simpl;
    rewrite ?upsert_docs_other by done;
    rewrite ?lookup_insert_ne by done;
    rewrite ?blob_deleted_lookup by congruence; done.
Qed.

(** A delete for one envelope, whatever comes of it, leaves the catalog entry
    of every other envelope as it was, and touches no blob other than the one
    the removed entry referred to. *)
Theorem delete_envelope_isolation env (param : string) w :
  let envelopeId := Number (Some param) in
  let w' := (run (delete_envelope env param) w).2 in
  (∀ other, other ≠ envelopeId →
     List.find (matches other) (catalog w') = List.find (matches other) (catalog w))
  ∧ (∀ h, List.find (matches envelopeId) (catalog w) ≫= blob_of ≠ Some h →
       files w' !! h = files w !! h).
Proof.
  intros envelopeId w'. subst w'. rewrite delete_envelope_eq. cbv zeta.
  fold envelopeId. rewrite remove_doc_found.
  destruct (List.find (matches envelopeId) (catalog w)) as [d|] eqn:Ed; simpl;
    (split; [intros other Hne | intros h Hold]);
    repeat match goal with
           | |- context [match ?x with _ => _ end] => destruct x
           end; simpl; rewrite ?blob_deleted_catalog; simpl;
    rewrite ?remove_doc_other by done;
    rewrite ?blob_deleted_lookup by congruence; done.
Qed.

(** ** Replacing and removing an entry *)

Lemma upsert_docs_length env envelopeId u docs :
  length (upsert_docs env envelopeId u docs).1
  = match List.find (matches envelopeId) docs with
    | Some _ => length docs
    | None => S (length docs)
    end.
Proof.
  induction docs as [|d docs IH]; cbn [upsert_docs find]; [done|].
  destruct (matches envelopeId d); [done|].
  destruct (upsert_docs env envelopeId u docs) as [docs' r]. cbn [fst length] in *.
  rewrite IH. by destruct (List.find (matches envelopeId) docs).
Qed.

Lemma upsert_docs_id env envelopeId u docs :
  d_id (upsert_docs env envelopeId u docs).2
  = match List.find (matches envelopeId) docs with
    | Some d => d_id d
    | None => new_doc_id env
    end.
Proof.
  induction docs as [|d docs IH]; cbn [upsert_docs find]; [done|].
  destruct (matches envelopeId d); [done|].
  by destruct (upsert_docs env envelopeId u docs) as [docs' r].
Qed.

(** A successful upload for an envelope that has an entry rewrites that
    entry: the catalog has as many entries as before and the answer carries
    the entry's own [id].  Only for an envelope without an entry does the
    catalog grow, by one. *)
Theorem upload_upserts env w (raw : option string) (f : File) (z : Z) :
  db_up env w → find_error env = None → upload_error env = None →
  upsert_error env = None → Number raw = Int z → 0 ≤ z →
  ∃ v w', run (post_uploads env {| body_envelopeId := raw; file := Some f |}) w
          = (Json 200 (BEntry v), w')
    ∧ match List.find (matches (Int z)) (catalog w) with
      | Some d => length (catalog w') = length (catalog w)
                  ∧ v_id v = ObjectId.toString (d_id d)
      | None => length (catalog w') = S (length (catalog w))
                ∧ v_id v = ObjectId.toString (new_doc_id env)
      end.
Proof.
  intros Hup Hfind Hupl Hups Hnum Hz.
  destruct (post_uploads_success env w raw f z)
    as (w' & Hrun & _ & Hcat & _); try done.
  eexists _, w'. split; [exact Hrun|].
  rewrite Hcat, upsert_docs_length. simpl v_id. rewrite upsert_docs_id.
  by destruct (List.find (matches (Int z)) (catalog w)).
Qed.

Lemma upload_upserts_witness :
  ∃ v w', run (post_uploads (second_env None None)
                 {| body_envelopeId := Some "7"%string; file := Some dog_png |})
            after_first_upload
          = (Json 200 (BEntry v), w')
    ∧ match List.find (matches (Int 7)) (catalog after_first_upload) with
      | Some d => length (catalog w') = length (catalog after_first_upload)
                  ∧ v_id v = ObjectId.toString (d_id d)
      | None => length (catalog w') = S (length (catalog after_first_upload))
                ∧ v_id v = ObjectId.toString (new_doc_id (second_env None None))
      end.
Proof.
  apply (upload_upserts (second_env None None) after_first_upload
           (Some "7"%string) dog_png 7).
  - by right.
  - reflexivity.
  - reflexivity.
  - reflexivity.
  - reflexivity.
  - lia.
Defined.

Lemma post_uploads_success_world env w (raw : option string) (f : File) (z : Z) :
  db_up env w → find_error env = None → upload_error env = None →
  upsert_error env = None → Number raw = Int z → 0 ≤ z →
  run (post_uploads env {| body_envelopeId := raw; file := Some f |}) w
  = (Json 200 (BEntry (view
       (upsert_docs env (Int z) (fields_for env f) (catalog w)).2)),
     upserted env (Int z) (fields_for env f)
       (blob_created env f (Int z)
          match List.find (matches (Int z)) (catalog w) ≫= blob_of with
          | Some old => blob_deleted env old (connected w)
          | None => connected w
          end)).
Proof.
  intros Hup%db_up_connects Hfind Hupl Hups Hnum Hz.
  rewrite post_uploads_eq, Hup. cbv zeta. simpl body_envelopeId. simpl file.
  rewrite Hnum, Hfind, Hupl, Hups.
  assert (valid_envelopeId (Int z) = true) as -> by (apply valid_envelopeId_Int; eauto).
  simpl negb. cbv iota. do 3 f_equal.
  by destruct (List.find _ (catalog w) ≫= blob_of);
    rewrite blob_created_catalog, ?blob_deleted_catalog.
Qed.

Lemma parse_truthy (s : string) (h : N) :
  ObjectId.parse s = Some h → truthy (Some s) = true.
Proof. by destruct s. Qed.

(** After a successful upload that replaces an entry, and whose deletion of
    the old blob goes through, the old blob is gone: the file route answers
    404 "Not found" for the old [fileId]. *)
Theorem replaced_blob_unreadable env env' w (raw : option string) (f : File)
    (z : Z) (d : Doc) (s : string) (old : N) :
  db_up env w → find_error env = None → upload_error env = None →
  upsert_error env = None → blob_delete_ok env = true →
  Number raw = Int z → 0 ≤ z →
  List.find (matches (Int z)) (catalog w) = Some d →
  d_fileId d = Some s → ObjectId.parse s = Some old → old ≠ new_file_id env →
  files_find_error env' = None →
  ∃ v w', run (post_uploads env {| body_envelopeId := raw; file := Some f |}) w
          = (Json 200 (BEntry v), w')
    ∧ files w' !! old = None
    ∧ (run (get_file env' s) w').1 = End 404 "Not found".
Proof.
  intros Hup Hfind Hupl Hups Hdel Hnum Hz Hd Hs Hparse Hne Hff.
  rewrite (post_uploads_success_world env w raw f z) by done.
  rewrite Hd. simpl mbind. unfold blob_of at 1. rewrite Hs, Hparse.
  eexists _, _. split; [done|].
  assert (∀ w0, files (upserted env (Int z) (fields_for env f)
                        (blob_created env f (Int z) (blob_deleted env old w0)))
                !! old = None) as Hgone.
  { intros w0. simpl. rewrite lookup_insert_ne by done.
    rewrite blob_deleted_files by done. apply lookup_delete_eq. }
  split; [apply Hgone|].
  rewrite get_file_eq. cbv zeta.
  rewrite (parse_truthy s old), Hparse, Hff, Hgone by done.
  unfold blob_deleted. by rewrite Hdel.
Qed.

Lemma replaced_blob_unreadable_witness :
  ∃ v w', run (post_uploads (second_env None None)
                 {| body_envelopeId := Some "7"%string; file := Some dog_png |})
            after_first_upload
          = (Json 200 (BEntry v), w')
    ∧ files w' !! 1%N = None
    ∧ (run (get_file ok_env "000000000000000000000001") w').1 = End 404 "Not found".
Proof.
  apply (replaced_blob_unreadable (second_env None None) ok_env after_first_upload
           (Some "7"%string) dog_png 7
           {| d_id := 1; d_envelopeId := Int 7;
              d_url := "/api/files/000000000000000000000001";
              d_originalName := "cat.png"; d_mimeType := "image/png";
              d_size := 3; d_fileId := Some "000000000000000000000001"%string;
              d_createdAt := 0 |} "000000000000000000000001" 1).
  - by right.
  - reflexivity.
  - reflexivity.
  - reflexivity.
  - reflexivity.
  - reflexivity.
  - lia.
  - reflexivity.
  - reflexivity.
  - reflexivity.
  - discriminate.
  - reflexivity.
Defined.

Lemma delete_envelope_removes_entry_first_witness :
  ∃ w', run (delete_envelope ok_env "7") after_first_upload
        = (Json 200 (BDeleted true true), w')
    ∧ new_events after_first_upload w'
      = [CatalogRemoved (Int 7); BlobDeleteRequested 1]
    ∧ List.find (matches (Int 7)) (catalog w') = None.
Proof.
  apply (delete_envelope_removes_entry_first ok_env after_first_upload "7" 7
           {| d_id := 1; d_envelopeId := Int 7;
              d_url := "/api/files/000000000000000000000001";
              d_originalName := "cat.png"; d_mimeType := "image/png";
              d_size := 3; d_fileId := Some "000000000000000000000001"%string;
              d_createdAt := 0 |} 1).
  - by right.
  - reflexivity.
  - reflexivity.
  - lia.
  - vm_compute. apply NoDup_singleton.
  - reflexivity.
  - reflexivity.
Defined.

Lemma reachable_unique_envelopes_witness :
  unique_envelopes
    (catalog (run (serve None 10 ok_env
                     (PostUpload (Some "7"%string)
                        (Some {| p_filename := "cat.png"; p_mimetype := "image/png";
                                 p_content := [x89; x50; x4e] |}))) initial).2).
Proof.
  apply (reachable_unique_envelopes None 10).
  apply reachable_serve, reachable_initial.
Defined.

(** The delete route coerces its parameter as the upload route does its
    field: a parameter of white space only (the route [/api/envelopes/%20])
    names envelope 0, whose entry is removed. *)
Theorem blank_param_deletes_envelope_zero env w (param : string) (d : Doc) :
  blank param = true → db_up env w → remove_error env = None →
  List.find (matches (Int 0)) (catalog w) = Some d →
  ∃ w', run (delete_envelope env param) w = (Json 200 (BDeleted true true), w')
    ∧ CatalogRemoved (Int 0) ∈ new_events w w'
    ∧ (length (catalog w') < length (catalog w))%nat.
Proof.
  intros Hb Hup%db_up_connects Hrm Hd.
  rewrite delete_envelope_eq, Hup. cbv zeta.
  rewrite (Number_blank param Hb), Hrm, remove_doc_found, Hd. simpl negb. cbv iota.
  eexists. split; [done|].
  assert (length (remove_doc (Int 0) (catalog w)).1 < length (catalog w))%nat as Hlen.
  { clear -Hd. induction (catalog w) as [|d' docs IH]; [done|].
    cbn [find remove_doc] in *. destruct (matches (Int 0) d'); cbn; [lia|].
    destruct (remove_doc (Int 0) docs). cbn in *. apply IH in Hd. lia. }
  destruct (blob_of d) as [old|]; split.
  - erewrite new_events_app; [|rewrite blob_deleted_log; simpl; by rewrite <- app_assoc].
    set_solver.
  - by rewrite blob_deleted_catalog.
  - erewrite new_events_app; [|done]. set_solver.
  - done.
Qed.

Lemma blank_param_deletes_envelope_zero_witness :
  let w := (run (post_uploads ok_env {| body_envelopeId := Some "0"%string;
                                        file := Some cat_png |}) initial).2 in
  ∃ w', run (delete_envelope ok_env " ") w = (Json 200 (BDeleted true true), w')
    ∧ CatalogRemoved (Int 0) ∈ new_events w w'
    ∧ (length (catalog w') < length (catalog w))%nat.
Proof.
  intros w.
  apply (blank_param_deletes_envelope_zero ok_env w " "
           {| d_id := 1; d_envelopeId := Int 0;
              d_url := "/api/files/000000000000000000000001";
              d_originalName := "cat.png"; d_mimeType := "image/png";
              d_size := 3; d_fileId := Some "000000000000000000000001"%string;
              d_createdAt := 0 |}).
  - reflexivity.
  - by right.
  - reflexivity.
  - reflexivity.
Defined.

(** Upload, then delete: after a successful upload for an envelope and a
    successful delete of the same envelope whose blob deletion goes through,
    the envelope has no entry in GET /api/envelopes and the url the upload
    answered with leads to 404 "Not found". *)
Theorem put_then_delete uploadDir env env2 env3 w
    (raw : option string) (param : string) (f : File) (z : Z) :
  healthy env → healthy env2 → blob_delete_ok env2 = true → healthy env3 →
  Number raw = Int z → Number (Some param) = Int z → 0 ≤ z →
  (new_file_id env < 2 ^ 96)%N → unique_envelopes (catalog w) →
  ∃ v w' w'',
    run (post_uploads env {| body_envelopeId := raw; file := Some f |}) w
    = (Json 200 (BEntry v), w')
    ∧ run (delete_envelope env2 param) w' = (Json 200 (BDeleted true true), w'')
    ∧ (∃ m w3, run (get_envelopes uploadDir env3) w'' = (Json 200 (BMap m), w3)
               ∧ m !! z = None)
    ∧ (∃ id w3, route_files (v_url v) = Some id
                ∧ run (get_file env3 id) w'' = (End 404 "Not found", w3)).
Proof.
  intros (Hc & Hfind & Hupl & Hups & _) (_ & _ & _ & _ & Hrm & _) Hdel
    (_ & Hfind3 & _ & _ & _ & Hff3 & _) Hnum Hnum' Hz Hid Huniq.
  destruct (post_uploads_success env w raw f z)
    as (w' & Hrun & Hconn & Hcat & Hfile & _); [by right | done..|].
  pose proof (upsert_docs_fields env (Int z) (fields_for env f) (catalog w))
    as (He & Hurl & _ & _ & _ & Hfid).
  pose proof (upsert_docs_find env (Int z) (fields_for env f) (catalog w)) as Hfound.
  rewrite <- Hcat in Hfound.
  assert (unique_envelopes (catalog w')) as Huniq'
    by (rewrite Hcat; by apply upsert_docs_unique).
  eexists _, w', _. split; [exact Hrun|].
  rewrite delete_envelope_eq, Hconn. cbv zeta.
  rewrite Hnum', Hrm, remove_doc_found, Hfound.
  assert (valid_envelopeId (Int z) = true) as -> by (apply valid_envelopeId_Int; eauto).
  simpl negb. cbv iota. unfold blob_of at 1. rewrite Hfid. simpl u_fileId.
  rewrite parse_toString by done.
  split; [done|]. split.
  - rewrite get_envelopes_eq. unfold blob_deleted at 1. rewrite Hdel. simpl isConnected.
    rewrite Hfind3. eexists _, _. split; [done|].
    rewrite blob_deleted_catalog. simpl catalog.
    rewrite collect_lookup; [|done|by apply remove_doc_unique].
    by rewrite remove_doc_absent.
  - exists (ObjectId.toString (new_file_id env)). eexists. split.
    + simpl v_url. rewrite Hurl. apply route_files_url.
    + rewrite get_file_eq. unfold blob_deleted at 1. rewrite Hdel. simpl isConnected.
      cbv zeta. rewrite truthy_toString, parse_toString, Hff3 by done.
      rewrite blob_deleted_files by done. by rewrite lookup_delete_eq.
Qed.

Lemma put_then_delete_witness :
  ∃ v w' w'',
    run (post_uploads ok_env {| body_envelopeId := Some "7"%string;
                                file := Some cat_png |}) initial
    = (Json 200 (BEntry v), w')
    ∧ run (delete_envelope ok_env "7") w' = (Json 200 (BDeleted true true), w'')
    ∧ (∃ m w3, run (get_envelopes None ok_env) w'' = (Json 200 (BMap m), w3)
               ∧ m !! 7 = None)
    ∧ (∃ id w3, route_files (v_url v) = Some id
                ∧ run (get_file ok_env id) w'' = (End 404 "Not found", w3)).
Proof.
  apply (put_then_delete None ok_env ok_env ok_env initial (Some "7"%string) "7"
           cat_png 7).
  - by repeat split.
  - by repeat split.
  - reflexivity.
  - by repeat split.
  - reflexivity.
  - reflexivity.
  - lia.
  - reflexivity.
  - apply NoDup_nil_2.
Defined.

(** ** What the read routes show *)

Lemma collect_negative uploadDir docs acc z :
  z < 0 → foldl (collect uploadDir) acc docs !! z = acc !! z.
Proof.
  intros Hz. revert acc. induction docs as [|d docs IH]; intros acc; [done|].
  simpl. rewrite IH. unfold collect.
  destruct (d_envelopeId d) as [| |z'|]; simpl; try done.
  destruct (z' <? 0) eqn:Ez'; [done|]. destruct (hidden uploadDir d); [done|].
  apply lookup_insert_ne. apply Z.ltb_ge in Ez'. lia.
Qed.

(** GET /api/envelopes, on a catalog with one entry per envelope: the object
    it answers with has, under each non-negative integer [z], the entry of
    envelope [z] when there is one and the [fileId] filter does not hide it,
    and nothing else; there is no negative key. *)
Theorem get_envelopes_entries uploadDir env w :
  db_up env w → find_error env = None → unique_envelopes (catalog w) →
  ∃ m w', run (get_envelopes uploadDir env) w = (Json 200 (BMap m), w')
    ∧ ∀ z, m !! z =
           if 0 <=? z
           then d ← List.find (matches (Int z)) (catalog w);
                if hidden uploadDir d then None else Some (view d)
           else None.
Proof.
  intros Hup%db_up_connects Hfind Huniq.
  rewrite get_envelopes_eq, Hup, Hfind. eexists _, _. split; [done|].
  intros z. destruct (0 <=? z) eqn:Ez.
  - apply Z.leb_le in Ez. rewrite collect_lookup by done.
    by destruct (List.find (matches (Int z)) (catalog w)).
  - apply Z.leb_gt in Ez. by rewrite collect_negative.
Qed.

Lemma get_envelopes_entries_witness :
  ∃ m w', run (get_envelopes None ok_env) after_first_upload = (Json 200 (BMap m), w')
    ∧ ∀ z, m !! z =
           if 0 <=? z
           then d ← List.find (matches (Int z)) (catalog after_first_upload);
                if hidden None d then None else Some (view d)
           else None.
Proof.
  apply (get_envelopes_entries None ok_env after_first_upload).
  - by right.
  - reflexivity.
  - vm_compute. apply NoDup_singleton.
Defined.

(** The file route streams nothing but stored bytes: when it answers with a
    stream, its [id] is the 24-digit form of the id of a file of the bucket,
    the bytes are that file's, the cache header is the fixed one and the
    content type is the file's (none when the file has none). *)
Theorem get_file_streams_stored env (id : string) w
    (contentType : option string) (cacheControl : string) (bytes : list byte) :
  (run (get_file env id) w).1 = Stream contentType cacheControl bytes →
  ∃ h f, ObjectId.parse id = Some h ∧ files w !! h = Some f
    ∧ bytes = g_data f
    ∧ cacheControl = "public, max-age=31536000, immutable"%string
    ∧ contentType = (if truthy (Some (g_contentType f))
                     then Some (g_contentType f) else None).
Proof.
  rewrite get_file_eq. cbv zeta.
  destruct (if isConnected w then None else connect_error env); [done|].
  destruct (negb _); [done|].
  destruct (ObjectId.parse id) as [h|]; [|done].
  destruct (files_find_error env); [done|].
  destruct (files w !! h) as [f|] eqn:Ef; [|done].
  destruct (download_ok env); [|done].
  simpl. intros [= <- <- <-]. by exists h, f.
Qed.

Lemma get_file_streams_stored_witness :
  ∃ h f, ObjectId.parse "000000000000000000000001" = Some h
    ∧ files after_first_upload !! h = Some f
    ∧ [x89; x50; x4e] = g_data f
    ∧ "public, max-age=31536000, immutable"%string
      = "public, max-age=31536000, immutable"%string
    ∧ Some "image/png"%string = (if truthy (Some (g_contentType f))
                                 then Some (g_contentType f) else None).
Proof.
  apply (get_file_streams_stored ok_env "000000000000000000000001"
           after_first_upload).
  reflexivity.
Defined.

(** The errors of the file route, with the database reachable: an [id] that
    is not an ObjectId is a 400 ("Missing id" for the empty one, "Bad
    request" otherwise), and an ObjectId that names no file of the bucket, a
    deleted one among them, is a 404 "Not found", not an exception. *)
Theorem get_file_errors env (id : string) w :
  db_up env w →
  (ObjectId.parse id = None →
   (run (get_file env id) w).1
   = End 400 (if String.eqb id "" then "Missing id" else "Bad request"))
  ∧ (∀ h, ObjectId.parse id = Some h → files_find_error env = None →
          files w !! h = None →
          (run (get_file env id) w).1 = End 404 "Not found").
Proof.
  intros Hup%db_up_connects. rewrite get_file_eq, Hup. cbv zeta. split.
  - intros ->. simpl. by destruct (String.eqb id "").
  - intros h Hp Hff Hnone. by rewrite (parse_truthy id h), Hp, Hff, Hnone.
Qed.

Lemma get_file_errors_witness :
  (ObjectId.parse "cat.png" = None →
   (run (get_file ok_env "cat.png") after_first_upload).1
   = End 400 (if String.eqb "cat.png" "" then "Missing id" else "Bad request"))
  ∧ (∀ h, ObjectId.parse "cat.png" = Some h → files_find_error ok_env = None →
          files after_first_upload !! h = None →
          (run (get_file ok_env "cat.png") after_first_upload).1
          = End 404 "Not found").
Proof.
  apply (get_file_errors ok_env "cat.png" after_first_upload). by right.
Defined.

(** GET /api/uploads limits before it filters.  The catalog splits into its
    (at most) 200 newest entries and the rest, no entry of the rest being
    newer than one of the newest; the listing is made of the newest entries
    that the [fileId] filter does not hide, in their order, and of all of
    them when [UPLOAD_DIR] is set.  Older entries never take the place of
    hidden ones. *)
Theorem get_uploads_newest uploadDir env w :
  db_up env w → find_error env = None →
  ∃ newest rest vs w',
    run (get_uploads uploadDir env) w = (Json 200 (BList vs), w')
    ∧ catalog w ≡ₚ newest ++ rest
    ∧ length newest = (200 `min` length (catalog w))%nat
    ∧ (∀ a b, a ∈ newest → b ∈ rest → d_createdAt b ≤ d_createdAt a)
    ∧ vs = view <$> filter (λ d, ¬ hidden uploadDir d) newest
    ∧ (truthy uploadDir = true → vs = view <$> newest).
Proof.
  intros Hup%db_up_connects Hfind. rewrite get_uploads_eq, Hup, Hfind.
  set (sorted := merge_sort newer_first (catalog w)).
  exists (take 200 sorted), (drop 200 sorted). eexists _, _.
  split; [done|]. split_and!.
  - rewrite take_drop. unfold sorted. by rewrite merge_sort_Permutation.
  - rewrite length_take. unfold sorted. by rewrite merge_sort_Permutation.
  - intros a b Ha Hb.
    apply (StronglySorted_app_1_elem_of newer_first (take 200 sorted)
             (drop 200 sorted) a b); [|done..].
    rewrite take_drop. apply StronglySorted_merge_sort; apply _.
  - done.
  - intros Hdir. f_equal. apply filter_all. intros d _.
    unfold hidden. rewrite Hdir. simpl. by intros [].
Qed.

Lemma get_uploads_newest_witness :
  ∃ newest rest vs w',
    run (get_uploads None ok_env) after_first_upload = (Json 200 (BList vs), w')
    ∧ catalog after_first_upload ≡ₚ newest ++ rest
    ∧ length newest = (200 `min` length (catalog after_first_upload))%nat
    ∧ (∀ a b, a ∈ newest → b ∈ rest → d_createdAt b ≤ d_createdAt a)
    ∧ vs = view <$> filter (λ d, ¬ hidden None d) newest
    ∧ (truthy None = true → vs = view <$> newest).
Proof.
  apply (get_uploads_newest None ok_env after_first_upload).
  - by right.
  - reflexivity.
Defined.

(** ** A 200 from the upload route *)

(** An upload answers 200 only for a valid [envelopeId] and a file, and when
    it does the blob is in the bucket, whole, under the id the catalog entry
    of the envelope now carries: no entry is shown that points at a blob not
    yet written. *)
Theorem upload_ok_means_stored env req w :
  is_error (run (post_uploads env req) w).1 = false →
  ∃ z f v,
    (run (post_uploads env req) w).1 = Json 200 (BEntry v)
    ∧ Number (body_envelopeId req) = Int z ∧ 0 ≤ z ∧ file req = Some f
    ∧ v_envelopeId v = Int z
    ∧ v_url v = ("/api/files/" +:+ ObjectId.toString (new_file_id env))%string
    ∧ files (run (post_uploads env req) w).2 !! new_file_id env
      = Some (grid_file_of f (Int z))
    ∧ d_fileId <$> List.find (matches (Int z))
                     (catalog (run (post_uploads env req) w).2)
      = Some (Some (ObjectId.toString (new_file_id env))).
Proof.
  rewrite post_uploads_eq. cbv zeta.
  destruct (if isConnected w then None else connect_error env); [done|].
  destruct (valid_envelopeId _) eqn:Ev; [|done].
  apply valid_envelopeId_Int in Ev as (z & Hnum & Hz). rewrite Hnum.
  destruct (file req) as [f|]; [|done].
  destruct (find_error env); [done|].
  destruct (upload_error env).
  { by destruct (List.find _ (catalog w) ≫= blob_of). }
  destruct (upsert_error env).
  { by destruct (List.find _ (catalog w) ≫= blob_of). }
  intros _. cbn [negb]. cbv iota.
  generalize (match List.find (matches (Int z)) (catalog w) ≫= blob_of with
              | Some id => blob_deleted env id (connected w)
              | None => connected w
              end).
  intros w2. exists z, f. eexists. cbn [fst snd].
  pose proof (upsert_docs_fields env (Int z) (fields_for env f)
                (catalog (blob_created env f (Int z) w2)))
    as (He & Hurl & _ & _ & _ & Hfid).
  split_and!; [done | done | done | done | exact He | exact Hurl
               | apply lookup_insert_eq |].
  cbn [upserted catalog with_log with_catalog].
  rewrite upsert_docs_find. cbn [fmap option_fmap option_map]. by rewrite Hfid.
Qed.

Lemma upload_ok_means_stored_witness :
  let env := second_env None None in
  let req := {| body_envelopeId := Some "7"%string; file := Some dog_png |} in
  ∃ z f v,
    (run (post_uploads env req) after_first_upload).1 = Json 200 (BEntry v)
    ∧ Number (body_envelopeId req) = Int z ∧ 0 ≤ z ∧ file req = Some f
    ∧ v_envelopeId v = Int z
    ∧ v_url v = ("/api/files/" +:+ ObjectId.toString (new_file_id env))%string
    ∧ files (run (post_uploads env req) after_first_upload).2 !! new_file_id env
      = Some (grid_file_of f (Int z))
    ∧ d_fileId <$> List.find (matches (Int z))
                     (catalog (run (post_uploads env req) after_first_upload).2)
      = Some (Some (ObjectId.toString (new_file_id env))).
Proof.
  intros env req. apply (upload_ok_means_stored env req after_first_upload).
  reflexivity.
Defined.



(** ** The entries the handlers write *)

Lemma upsert_docs_elem env envelopeId u docs (d : Doc) :
  d ∈ (upsert_docs env envelopeId u docs).1 →
  d ∈ docs ∨ d = (upsert_docs env envelopeId u docs).2.
Proof.
  induction docs as [|d0 docs IH]; cbn [upsert_docs].
  - cbn. intros ->%list_elem_of_singleton. by right.
  - destruct (matches envelopeId d0); cbn [fst snd].
    + intros [->|Hin]%elem_of_cons; [by right | left; by right].
    + destruct (upsert_docs env envelopeId u docs) as [docs' r]. cbn [fst snd] in *.
      intros [->|Hin]%elem_of_cons; [left; by left|].
      destruct (IH Hin) as [?|?]; [left; by right | by right].
Qed.

(** Started on an empty catalog, the server only ever holds entries it wrote
    itself: whatever requests it served and whatever the backends did, every
    entry has a non-negative integer [envelopeId], a non-empty [fileId], and
    the url [/api/files/] followed by that [fileId]; so neither listing ever
    skips an entry, with or without [UPLOAD_DIR]. *)
Theorem reachable_entries_wellformed uploadDir maxFileSize w (d : Doc) :
  reachable uploadDir maxFileSize w → d ∈ catalog w →
  valid_envelopeId (d_envelopeId d) = true
  ∧ (∃ s, d_fileId d = Some s ∧ d_url d = ("/api/files/" +:+ s)%string)
  ∧ (∀ dir, hidden dir d = false).
Proof.
  intros Hr. revert d.
  assert (∀ d, valid_envelopeId (d_envelopeId d) = true
            ∧ (∃ s, d_fileId d = Some s ∧ truthy (Some s) = true
                    ∧ d_url d = ("/api/files/" +:+ s)%string) →
            valid_envelopeId (d_envelopeId d) = true
            ∧ (∃ s, d_fileId d = Some s ∧ d_url d = ("/api/files/" +:+ s)%string)
            ∧ (∀ dir, hidden dir d = false)) as Hweaken.
  { intros d (Hv & s & Hs & Ht & Hu). split; [done|]. split; [by exists s|].
    intros dir. unfold hidden. by rewrite Hs, Ht, andb_false_r. }
  intros d Hd. apply Hweaken. revert d Hd.
  induction Hr as [|w env rq Hr IH]; [by intros d ?%not_elem_of_nil|].
  assert (∀ f envelopeId d,
            valid_envelopeId envelopeId = true →
            d ∈ (upsert_docs env envelopeId (fields_for env f) (catalog w)).1 →
            valid_envelopeId (d_envelopeId d) = true
            ∧ (∃ s, d_fileId d = Some s ∧ truthy (Some s) = true
                    ∧ d_url d = ("/api/files/" +:+ s)%string)) as Hups.
  { intros f envelopeId d Hv [Hin| ->]%upsert_docs_elem; [by apply IH|].
    destruct (upsert_docs_fields env envelopeId (fields_for env f) (catalog w))
      as (-> & -> & _ & _ & _ & ->).
    split; [done|]. eexists. split; [done|]. by split. }
  assert (∀ envelopeId d, d ∈ (remove_doc envelopeId (catalog w)).1 → d ∈ catalog w)
    as Hrem.
  { intros envelopeId d Hin. by eapply elem_of_sublist, remove_doc_sublist. }
  intros d. destruct rq as [raw image| | |param|id]; cbn [serve].
  - unfold route_post_uploads.
    destruct (multer_single maxFileSize image) as [[code msg]|f]; [by apply IH|].
    rewrite post_uploads_eq. cbv zeta.
    destruct (if isConnected w then None else connect_error env); [by apply IH|].
    destruct (valid_envelopeId _) eqn:Ev; [|by apply IH].
    cbn [negb body_envelopeId file].
    destruct f as [f|]; [|by apply IH].
    destruct (find_error env); [by apply IH|].
    destruct (upload_error env).
    { destruct (List.find _ (catalog w) ≫= blob_of); cbn [snd];
        rewrite ?blob_deleted_catalog; by apply IH. }
    destruct (upsert_error env).
    { destruct (List.find _ (catalog w) ≫= blob_of); cbn [snd];
        rewrite ?blob_created_catalog, ?blob_deleted_catalog; by apply IH. }
    cbn [snd upserted catalog with_log with_catalog].
    destruct (List.find _ (catalog w) ≫= blob_of);
      rewrite ?blob_created_catalog, ?blob_deleted_catalog; by apply Hups.
  - rewrite get_uploads_eq.
    destruct (if isConnected w then _ else _), (find_error env); by apply IH.
  - rewrite get_envelopes_eq.
    destruct (if isConnected w then _ else _), (find_error env); by apply IH.
  - rewrite delete_envelope_eq. cbv zeta.
    repeat match goal with
           | |- context [match ?x with _ => _ end] => destruct x
           end; cbn [snd]; rewrite ?blob_deleted_catalog; cbn [catalog connected];
      try (by apply IH); intros Hin;
      cbn [removed catalog with_log with_catalog connected] in Hin;
      apply Hrem in Hin; by apply IH.
  - rewrite get_file_catalog. by apply IH.
Qed.

Lemma reachable_entries_wellformed_witness :
  let w := (run (serve None 10 ok_env
                   (PostUpload (Some "7"%string)
                      (Some {| p_filename := "cat.png"; p_mimetype := "image/png";
                               p_content := [x89; x50; x4e] |}))) initial).2 in
  let d := {| d_id := 1; d_envelopeId := Int 7;
              d_url := "/api/files/000000000000000000000001";
              d_originalName := "cat.png"; d_mimeType := "image/png";
              d_size := 3; d_fileId := Some "000000000000000000000001"%string;
              d_createdAt := 0 |} in
  valid_envelopeId (d_envelopeId d) = true
  ∧ (∃ s, d_fileId d = Some s ∧ d_url d = ("/api/files/" +:+ s)%string)
  ∧ (∀ dir, hidden dir d = false).
Proof.
  intros w d. apply (reachable_entries_wellformed None 10 w d).
  - apply reachable_serve, reachable_initial.
  - vm_compute. apply list_elem_of_singleton. reflexivity.
Defined.
